(** * Survey coder: the batch classification pipeline

    A shallow embedding of [coder_app/services/classification_service.py]
    (class [ClassificationService]): the batch classifier [classify_batch],
    the concurrent scheduler [classify_batches_async], the codebook text
    serializer [reconstruct_codebook_text] and the slicing helper
    [chunk_list], together with the properties the design document states
    about them.

    Conventions of the embedding.
    - A Python [str] is a [string]; every character stands for one code
      point below 256.
    - A Python [float] is a binary64 primitive float.
    - A dictionary with a fixed set of keys is a record.
    - An exception is the [Raised] outcome of a computation; the calls made
      to the model client are appended to a log that every computation
      threads. *)

From Stdlib Require Import ZArith Lia DecimalString Ascii String.
From Stdlib Require Import Floats.PrimFloat.
From stdpp Require Import base list strings.

Local Open Scope string_scope.
Local Open Scope list_scope.
Local Open Scope Z_scope.

(** ** Python values and outcomes *)

(** The exceptions the modelled code can meet: a list assignment out of
    range, and [range] called with a zero step. *)
Inductive PyError : Type :=
  | IndexError
  | ValueError.

Inductive outcome (A : Type) : Type :=
  | Returned (a : A)
  | Raised (e : PyError).
Arguments Returned {A} a.
Arguments Raised {A} e.

Definition outcome_bind {A B : Type} (m : outcome A) (k : A -> outcome B)
  : outcome B :=
  match m with
  | Returned a => k a
  | Raised e => Raised e
  end.

Definition outcome_map {A B : Type} (f : A -> B) (m : outcome A) : outcome B :=
  outcome_bind m (fun a => Returned (f a)).

(** A value as the model may place it in the [index] field of a result
    entry. [bool] is a subclass of [int] in Python: [isinstance(True, int)]
    holds and [True] indexes a list as 1. *)
Inductive PyValue : Type :=
  | PyInt (z : Z)
  | PyBool (b : bool)
  | PyFloat (f : float)
  | PyStr (s : string)
  | PyNone.

(** [isinstance(v, int)], with the integer the value then denotes. *)
Definition as_int (v : PyValue) : option Z :=
  match v with
  | PyInt z => Some z
  | PyBool b => Some (Z.b2z b)
  | PyFloat _ | PyStr _ | PyNone => None
  end.

(** [x or []] on an optional list. *)
Definition or_empty {A : Type} (x : option (list A)) : list A :=
  match x with
  | Some l => l
  | None => []
  end.

(** [l[i] = v]: a negative index counts from the end, an index outside
    [-len(l), len(l)) raises [IndexError]. *)
Definition py_setitem {A : Type} (l : list A) (i : Z) (v : A)
  : outcome (list A) :=
  let n := Z.of_nat (length l) in
  if (0 <=? i) && (i <? n) then Returned (<[Z.to_nat i := v]> l)
  else if (- n <=? i) && (i <? 0) then Returned (<[Z.to_nat (i + n) := v]> l)
  else Raised IndexError.

(** [l[lo:hi]] with Python's clamping of both bounds. *)
Definition py_slice_bound (n i : Z) : Z :=
  if i <? 0 then Z.max 0 (i + n) else Z.min i n.

Definition py_slice {A : Type} (l : list A) (lo hi : Z) : list A :=
  let n := Z.of_nat (length l) in
  let lo' := py_slice_bound n lo in
  let hi' := py_slice_bound n hi in
  take (Z.to_nat (hi' - lo')) (drop (Z.to_nat lo') l).

(** [range(0, stop, step)] as a list. *)
Definition py_range0 (stop step : Z) : outcome (list Z) :=
  if step =? 0 then Raised ValueError
  else if step <? 0 then
    Returned (map (fun k => Z.of_nat k * step)
                  (seq 0 (Z.to_nat ((stop + step + 1) / step))))
  else
    Returned (map (fun k => Z.of_nat k * step)
                  (seq 0 (Z.to_nat ((stop + step - 1) / step)))).

(** [str(i)] for a natural number. *)
Definition str_of_nat (n : nat) : string :=
  NilEmpty.string_of_uint (Nat.to_uint n).

(** [sep.join(parts)]. *)
Definition py_join (sep : string) (parts : list string) : string :=
  String.concat sep parts.

(** The characters [str.strip] removes, among the code points below 256:
    U+0009 to U+000D, U+001C to U+0020, U+0085 and U+00A0. *)
Definition py_isspace (c : ascii) : bool :=
  let n := nat_of_ascii c in
  ((9 <=? n) && (n <=? 13) || (28 <=? n) && (n <=? 32)
   || (n =? 133) || (n =? 160))%nat.

Fixpoint py_lstrip (s : string) : string :=
  match s with
  | EmptyString => EmptyString
  | String c rest => if py_isspace c then py_lstrip rest else s
  end.

Fixpoint py_rstrip (s : string) : string :=
  match s with
  | EmptyString => EmptyString
  | String c rest =>
      match py_rstrip rest with
      | EmptyString => if py_isspace c then EmptyString else String c EmptyString
      | kept => String c kept
      end
  end.

Definition py_strip (s : string) : string := py_rstrip (py_lstrip s).

(** The characters the source spells with an escape. In the source file
    the two characters backslash, n inside a non-raw literal are written
    with a doubled backslash: they denote a backslash followed by the
    letter n, not a line feed. *)
Definition dquote : string := String "034"%char EmptyString.
Definition newline : string := String "010"%char EmptyString.
Definition backslash_n : string := "\n".
Definition backslash_dquote : string := "\" +:+ dquote.

(** ** Data model *)

(** Modelled from the spec: the module [coder_app/models/survey_models.py]
    that declares [ClassificationEvidence] and the record types below is
    not part of the sources at hand. Their fields are those of the design
    document's data model and those the service reads. A list-valued field
    is optional wherever the service guards it with [or []] or a truth
    test. *)
Record ClassificationEvidence : Type := {
  label : string;
  fragment : string;
  pertinence : float;
  explanation : option string
}.

(** Modelled from the spec: the declaration of [BatchItem] is missing too.
    The index is any value the model may answer with: the service tests
    it with [isinstance] before use. *)
Record BatchItem : Type := {
  index : PyValue;
  items : option (list ClassificationEvidence)
}.

(** Modelled from the spec: the declaration of [BatchClassificationOutput]
    is missing; it is the schema of a batch answer. *)
Record BatchClassificationOutput : Type := {
  results : option (list BatchItem)
}.

(** Modelled from the spec: the declaration of [Code] is missing. *)
Record Code : Type := {
  code : string;
  description : string;
  examples : option (list string)
}.

(** Modelled from the spec: the declaration of [Codebook] is missing. *)
Record Codebook : Type := {
  codes : option (list Code)
}.

(** One entry of the [Details] list of an aligned result. *)
Record Detail : Type := {
  detail_label : string;
  detail_fragment : string;
  detail_pertinence : float;
  detail_explanation : option string
}.

(** The dictionary with keys [Assigned Code] and [Details] that
    [classify_batch] returns for every response. *)
Record AlignedResult : Type := {
  Assigned_Code : string;
  Details : list Detail
}.

Definition BATCH_SIZE : Z := 64.
Definition MAX_CONCURRENCY : Z := 8.

(** ** The model client and the computations that call it *)

(** What [client.chat.completions.parse] is asked: the model, the system
    message and the user message. The response format is the batch output
    schema in every call modelled here. *)
Record ChatRequest : Type := {
  req_model : string;
  req_system : string;
  req_user : string
}.

(** What the client does with a request: it hands back the parsed message
    (which may be [None]) or raises. *)
Inductive ClientReply : Type :=
  | Parsed (p : option BatchClassificationOutput)
  | Failed.

Definition Client : Type := ChatRequest -> ClientReply.

(** A computation of the service: it may raise, and it extends the log of
    requests sent to the client. *)
Definition Py (A : Type) : Type :=
  list ChatRequest -> outcome A * list ChatRequest.

Definition ret {A : Type} (a : A) : Py A := fun log => (Returned a, log).

Definition bind {A B : Type} (m : Py A) (k : A -> Py B) : Py B :=
  fun log =>
    match m log with
    | (Returned a, log') => k a log'
    | (Raised e, log') => (Raised e, log')
    end.

Definition lift {A : Type} (m : outcome A) : Py A := fun log => (m, log).

Declare Scope py_scope.
Delimit Scope py_scope with py.
Notation "'let*' x := m 'in' k" := (bind m (fun x => k))
  (at level 10, x name, m at level 100, k at level 200, only parsing)
  : py_scope.

(** [_call_openai_api] with the batch output schema: the request is sent;
    whatever the client raises is caught and becomes [None]. (The message
    printed in that case is not modelled.) *)
Definition _call_openai_api (client : Client) (system_prompt user_prompt : string)
    (model : string) : Py (option BatchClassificationOutput) :=
  fun log =>
    let request := {| req_model := model; req_system := system_prompt;
                      req_user := user_prompt |} in
    match client request with
    | Parsed p => (Returned p, log ++ [request])
    | Failed => (Returned None, log ++ [request])
    end.

(** ** The batch classifier *)

Definition NO_CODE : string := "No Code Applied".

(** The prompt of [classify_batch], character for character. *)
Definition indexed_responses (responses : list string) : string :=
  py_join backslash_n
    (imap (fun i resp =>
             "[" +:+ str_of_nat i +:+ "] " +:+ backslash_dquote +:+ resp
                 +:+ backslash_dquote)
          responses).

Definition batch_prompt (question : string) (responses : list string)
    (codebook_text : string) (multi_label include_explanation : bool) : string :=
  let indexed := indexed_responses responses in
  let explanation_field :=
    if include_explanation
    then ", " +:+ dquote +:+ "explanation" +:+ dquote +:+ ": string"
    else EmptyString in
  let explanation_note :=
    if include_explanation then EmptyString
    else "\nDo NOT include an " +:+ dquote +:+ "explanation" +:+ dquote
           +:+ " field." in
  let single_rule :=
    if negb multi_label
    then "For single-label, each items list MUST contain exactly one item."
    else EmptyString in
  "Analyze the indexed responses against the codebook." +:+ newline
  +:+ "Question: " +:+ dquote +:+ question +:+ dquote +:+ newline
  +:+ "Codebook:\n---\n" +:+ codebook_text +:+ "\n---" +:+ newline
  +:+ "Responses (indexed):\n" +:+ indexed +:+ newline
  +:+ "Return ONLY JSON with this schema:" +:+ newline
  +:+ "{" +:+ newline
  +:+ "  " +:+ dquote +:+ "results" +:+ dquote +:+ ": [" +:+ newline
  +:+ "    { " +:+ dquote +:+ "index" +:+ dquote +:+ ": number, "
  +:+ dquote +:+ "items" +:+ dquote +:+ ": [ { "
  +:+ dquote +:+ "label" +:+ dquote +:+ ": string, "
  +:+ dquote +:+ "fragment" +:+ dquote +:+ ": string, "
  +:+ dquote +:+ "pertinence" +:+ dquote +:+ ": number (0-1)"
  +:+ explanation_field +:+ " } ] }" +:+ newline
  +:+ "  ]" +:+ newline
  +:+ "}" +:+ explanation_note +:+ newline
  +:+ single_rule +:+ newline
  +:+ "For uncovered responses, use an empty list for items." +:+ newline.

(** The dictionary stored for a result entry that passed the index test. *)
Definition aligned_entry (include_explanation : bool) (item : BatchItem)
  : AlignedResult :=
  let labels := map label (or_empty (items item)) in
  let label_str :=
    match labels with
    | [] => NO_CODE
    | _ :: _ => py_join " | " labels
    end in
  let details :=
    map (fun ev =>
           {| detail_label := label ev;
              detail_fragment := fragment ev;
              detail_pertinence := pertinence ev;
              detail_explanation :=
                if include_explanation then explanation ev else None |})
        (or_empty (items item)) in
  {| Assigned_Code := label_str; Details := details |}.

(** The loop over [parsed.results]. [n] is [len(responses)]. *)
Fixpoint align_loop (n : nat) (include_explanation : bool)
    (entries : list BatchItem) (aligned : list AlignedResult)
  : outcome (list AlignedResult) :=
  match entries with
  | [] => Returned aligned
  | item :: rest =>
      match as_int (index item) with
      | None => align_loop n include_explanation rest aligned
      | Some z =>
          if (z <? 0) || (z >=? Z.of_nat n)
          then align_loop n include_explanation rest aligned
          else
            outcome_bind
              (py_setitem aligned z (aligned_entry include_explanation item))
              (align_loop n include_explanation rest)
      end
  end.

Definition default_result : AlignedResult :=
  {| Assigned_Code := NO_CODE; Details := [] |}.

Definition classify_batch (client : Client) (question : string)
    (responses : list string) (codebook_text model : string)
    (multi_label include_explanation : bool) : Py (list AlignedResult) :=
  match responses with
  | [] => ret []
  | _ :: _ =>
      let system_msg := "You are a survey coding assistant." in
      let prompt :=
        batch_prompt question responses codebook_text multi_label
                     include_explanation in
      (let* parsed := _call_openai_api client system_msg prompt model in
       let aligned := map (fun _ => default_result) responses in
       match parsed with
       | None => ret aligned
       | Some p =>
           match results p with
           | None | Some [] => ret aligned
           | Some ((_ :: _) as entries) =>
               lift (align_loop (length responses) include_explanation
                                entries aligned)
           end
       end)%py
  end.

(** ** The concurrent scheduler *)

Definition worker (client : Client) (question codebook_text model : string)
    (multi_label include_explanation : bool) (idx : nat) (batch : list string)
  : Py (nat * list AlignedResult) :=
  (let* res := classify_batch client question batch codebook_text model
                         multi_label include_explanation in
   ret (idx, res))%py.

(** The loop over [as_completed(future_to_idx)]. [completion] lists the
    futures, by their position in the submission order, in the order in
    which they complete. A future is the computation of its worker; a
    worker shares nothing with the others but the client, so it is run
    here as one step, at the position of its completion. *)
Fixpoint collect_completed (futures : list (Py (nat * list AlignedResult)))
    (completion : list nat) (slots : list (option (list AlignedResult)))
  : Py (list (option (list AlignedResult))) :=
  match completion with
  | [] => ret slots
  | k :: later =>
      match futures !! k with
      | None => collect_completed futures later slots
      | Some future =>
          (let* finished := future in
           let '(i, res) := finished in
           let* slots' := lift (py_setitem slots (Z.of_nat i) (Some res)) in
           collect_completed futures later slots')%py
      end
  end.

(** A slot of the returned list holds [None] until its future completes. *)
Definition classify_batches_async (client : Client) (question : string)
    (batched_responses : list (list string)) (codebook_text model : string)
    (multi_label include_explanation : bool) (completion : list nat)
  : Py (list (option (list AlignedResult))) :=
  match batched_responses with
  | [] => ret []
  | _ :: _ =>
      let slots := replicate (length batched_responses) None in
      let futures :=
        imap (worker client question codebook_text model multi_label
                     include_explanation)
             batched_responses in
      collect_completed futures completion slots
  end.

(** The sequential counterpart the design document compares the scheduler
    with: [classify_batch] mapped over the batches, in submission order. *)
Fixpoint classify_batches_sequential (client : Client) (question : string)
    (batched_responses : list (list string)) (codebook_text model : string)
    (multi_label include_explanation : bool) : Py (list (list AlignedResult)) :=
  match batched_responses with
  | [] => ret []
  | batch :: later =>
      (let* res := classify_batch client question batch codebook_text model
                             multi_label include_explanation in
       let* rest := classify_batches_sequential client question later codebook_text
                 model multi_label include_explanation in
       ret (res :: rest))%py
  end.

(** ** The codebook text serializer *)

Definition reconstruct_codebook_text (codebook : option Codebook) : string :=
  match codebook with
  | None => EmptyString
  | Some cb =>
      match codes cb with
      | None | Some [] => EmptyString
      | Some ((_ :: _) as entries) =>
          py_strip
            (py_join backslash_n
               (map (fun item =>
                       "- Code: " +:+ code item +:+ "\n  Description: "
                                  +:+ description item)
                    entries))
      end
  end.

(** ** Chunking *)

Definition chunk_list (items : list string) (size : Z)
  : outcome (list (list string)) :=
  outcome_map (map (fun i => py_slice items i (i + size)))
              (py_range0 (Z.of_nat (length items)) size).

(** * Vocabulary of the properties *)

(** [targets n j item]: the entry passes the index test of the loop for a
    batch of [n] responses and its index denotes position [j]. *)
Definition targets (n j : nat) (item : BatchItem) : bool :=
  match as_int (index item) with
  | Some z => (0 <=? z) && (z <? Z.of_nat n) && (z =? Z.of_nat j)
  | None => false
  end.

(** The content of slot [j] once the loop has gone through [entries],
    when the slot held [current] before. *)
Fixpoint slot_after (n : nat) (include_explanation : bool) (j : nat)
    (entries : list BatchItem) (current : AlignedResult) : AlignedResult :=
  match entries with
  | [] => current
  | item :: rest =>
      slot_after n include_explanation j rest
        (if targets n j item then aligned_entry include_explanation item
         else current)
  end.

(** The entries of an answer of the adapter, none when there is no answer. *)
Definition answer_entries (answer : option BatchClassificationOutput)
  : list BatchItem :=
  match answer with
  | Some p => or_empty (results p)
  | None => []
  end.

(** The call [classify_batch] makes for a non-empty batch. *)
Definition adapter_call (client : Client) (question : string)
    (responses : list string) (codebook_text model : string)
    (multi_label include_explanation : bool)
  : Py (option BatchClassificationOutput) :=
  _call_openai_api client "You are a survey coding assistant."
    (batch_prompt question responses codebook_text multi_label
                  include_explanation)
    model.

(** The list a run of [classify_batch] returns, in closed form. *)
Definition batch_result (client : Client) (question : string)
    (responses : list string) (codebook_text model : string)
    (multi_label include_explanation : bool) : list AlignedResult :=
  let n := length responses in
  let answer :=
    match (adapter_call client question responses codebook_text model
                        multi_label include_explanation []).1 with
    | Returned a => a
    | Raised _ => None
    end in
  map (fun j => slot_after n include_explanation j (answer_entries answer)
                           default_result)
      (seq 0 n).

(** The requests a run of [classify_batch] adds to the log. *)
Definition batch_calls (client : Client) (question : string)
    (responses : list string) (codebook_text model : string)
    (multi_label include_explanation : bool) : list ChatRequest :=
  match responses with
  | [] => []
  | _ :: _ =>
      (adapter_call client question responses codebook_text model
                    multi_label include_explanation []).2
  end.

(** An index is rejected by the test of the loop when it is not an
    integer, is negative, or is not below the number of responses. *)
Definition index_rejected (n : nat) (item : BatchItem) : Prop :=
  as_int (index item) = None
  \/ exists z, as_int (index item) = Some z /\ (z < 0 \/ Z.of_nat n <= z).

(** The slot list after the futures listed in [completion] have completed,
    in closed form. *)
Definition store_completed (client : Client) (question : string)
    (batched_responses : list (list string)) (codebook_text model : string)
    (multi_label include_explanation : bool)
    (slots : list (option (list AlignedResult))) (k : nat)
  : list (option (list AlignedResult)) :=
  match batched_responses !! k with
  | Some batch =>
      <[k := Some (batch_result client question batch codebook_text model
                                multi_label include_explanation)]> slots
  | None => slots
  end.

(** The requests added to the log when the future of submission position
    [k] completes. *)
Definition completed_calls (client : Client) (question : string)
    (batched_responses : list (list string)) (codebook_text model : string)
    (multi_label include_explanation : bool) (k : nat) : list ChatRequest :=
  match batched_responses !! k with
  | Some batch =>
      batch_calls client question batch codebook_text model multi_label
                  include_explanation
  | None => []
  end.

(** The slot an entry targets: the position its index denotes when the
    index passes the test of the loop for a batch of [n] responses. *)
Definition target_of (n : nat) (item : BatchItem) : option nat :=
  match as_int (index item) with
  | Some z =>
      if (0 <=? z) && (z <? Z.of_nat n) then Some (Z.to_nat z) else None
  | None => None
  end.

(** The request [classify_batch] sends for a batch. *)
Definition batch_request (question : string) (responses : list string)
    (codebook_text model : string) (multi_label include_explanation : bool)
  : ChatRequest :=
  {| req_model := model;
     req_system := "You are a survey coding assistant.";
     req_user := batch_prompt question responses codebook_text multi_label
                              include_explanation |}.

(** The codes the serializer goes through, none for a missing codebook or
    a missing list. *)
Definition codebook_codes (codebook : option Codebook) : list Code :=
  match codebook with
  | Some cb => or_empty (codes cb)
  | None => []
  end.

(** A string of whitespace only. *)
Fixpoint all_space (s : string) : bool :=
  match s with
  | EmptyString => true
  | String c rest => py_isspace c && all_space rest
  end.

(** ** Sample data *)

Definition sample_responses : list string :=
  ["Great service!"; "Terrible support"; "Meh"].

Definition sample_evidence (l f : string) : ClassificationEvidence :=
  {| label := l; fragment := f; pertinence := 0.875%float;
     explanation := Some "stated plainly" |}.

Definition entry_at (i : PyValue) (evidence : list ClassificationEvidence)
  : BatchItem :=
  {| index := i; items := Some evidence |}.

(** A client that answers every request with the given entries. *)
Definition answering (entries : list BatchItem) : Client :=
  fun _ => Parsed (Some {| results := Some entries |}).

(** A client whose every call raises. *)
Definition failing_client : Client := fun _ => Failed.

(** * Properties *)

(** ** Slots and the entries that target them *)

Lemma py_setitem_in_range {A : Type} (l : list A) (z : Z) (v : A) :
  0 <= z < Z.of_nat (length l) ->
  py_setitem l z v = Returned (<[Z.to_nat z := v]> l).
Proof.
  intros [Hlo Hhi]. unfold py_setitem.
  destruct (Z.leb_spec 0 z); [|lia].
  destruct (Z.ltb_spec z (Z.of_nat (length l))); [|lia].
  reflexivity.
Qed.

Section Slots.

Variables (n : nat) (include_explanation : bool).

Lemma targets_rejected j item z :
  as_int (index item) = Some z ->
  (z <? 0) || (z >=? Z.of_nat n) = true ->
  targets n j item = false.
Proof.
  intros Hz Hguard. unfold targets. rewrite Hz.
  apply orb_true_iff in Hguard as [H|H].
  - apply Z.ltb_lt in H. destruct (Z.leb_spec 0 z); [lia|reflexivity].
  - rewrite Z.geb_leb in H. apply Z.leb_le in H.
    destruct (Z.ltb_spec z (Z.of_nat n)); [lia|].
    now rewrite andb_false_r.
Qed.

Lemma targets_accepted j item z :
  as_int (index item) = Some z ->
  (z <? 0) || (z >=? Z.of_nat n) = false ->
  0 <= z < Z.of_nat n /\ targets n j item = bool_decide (Z.to_nat z = j).
Proof.
  intros Hz Hguard. unfold targets. rewrite Hz.
  apply orb_false_iff in Hguard as [H1 H2].
  apply Z.ltb_ge in H1. rewrite Z.geb_leb in H2. apply Z.leb_gt in H2.
  split; [lia|].
  destruct (Z.leb_spec 0 z); [|lia].
  destruct (Z.ltb_spec z (Z.of_nat n)); [|lia]. simpl.
  case_bool_decide; [apply Z.eqb_eq|apply Z.eqb_neq]; lia.
Qed.

Lemma targets_None j item :
  as_int (index item) = None -> targets n j item = false.
Proof. intros H. unfold targets. now rewrite H. Qed.

Lemma targets_true_inv j item :
  targets n j item = true ->
  as_int (index item) = Some (Z.of_nat j) /\ (j < n)%nat.
Proof.
  unfold targets. destruct (as_int (index item)) as [z|]; [|discriminate].
  intros H. apply andb_true_iff in H as [H Heq].
  apply andb_true_iff in H as [Hlo Hhi].
  apply Z.eqb_eq in Heq. apply Z.ltb_lt in Hhi. subst z. split; [reflexivity|lia].
Qed.

Lemma targets_valid j item z :
  as_int (index item) = Some z ->
  0 <= z < Z.of_nat n ->
  targets n j item = bool_decide (Z.to_nat z = j).
Proof.
  intros Hz [Hlo Hhi]. unfold targets. rewrite Hz.
  destruct (Z.leb_spec 0 z); [|lia].
  destruct (Z.ltb_spec z (Z.of_nat n)); [|lia]. simpl.
  case_bool_decide; [apply Z.eqb_eq|apply Z.eqb_neq]; lia.
Qed.

Lemma targets_other j item :
  as_int (index item) <> Some (Z.of_nat j) -> targets n j item = false.
Proof.
  intros Hne. destruct (targets n j item) eqn:Ht; [|reflexivity].
  apply targets_true_inv in Ht as [Ht _]. contradiction.
Qed.

Lemma targets_index_rejected j item :
  index_rejected n item -> targets n j item = false.
Proof.
  intros [Hnone|(z & Hz & Hout)].
  - now apply targets_None.
  - destruct (targets n j item) eqn:Ht; [|reflexivity].
    apply targets_true_inv in Ht as [Ht Hj]. rewrite Hz in Ht.
    injection Ht as ->. lia.
Qed.

Lemma not_targeted_later (z : Z) (after : list BatchItem) :
  0 <= z ->
  (forall later, later ∈ after -> as_int (index later) <> Some z) ->
  forall later, later ∈ after -> targets n (Z.to_nat z) later = false.
Proof.
  intros Hz Hafter later Hin. apply targets_other.
  rewrite Z2Nat.id by exact Hz. now apply Hafter.
Qed.

Lemma slot_after_app j first second current :
  slot_after n include_explanation j (first ++ second) current
  = slot_after n include_explanation j second
      (slot_after n include_explanation j first current).
Proof.
  revert current. induction first as [|item rest IH]; intros current.
  - reflexivity.
  - cbn [app slot_after]. apply IH.
Qed.

Lemma slot_after_untargeted j entries current :
  (forall item, item ∈ entries -> targets n j item = false) ->
  slot_after n include_explanation j entries current = current.
Proof.
  revert current. induction entries as [|item rest IH]; intros current Hnone.
  - reflexivity.
  - cbn [slot_after]. rewrite (Hnone item) by apply list_elem_of_here.
    apply IH. intros other Hother. apply Hnone.
    now apply list_elem_of_further.
Qed.

(** The last entry that targets a slot decides it. *)
Lemma slot_after_last j before item after current :
  targets n j item = true ->
  (forall later, later ∈ after -> targets n j later = false) ->
  slot_after n include_explanation j (before ++ item :: after) current
  = aligned_entry include_explanation item.
Proof.
  intros Hitem Hafter. rewrite slot_after_app. cbn [slot_after].
  rewrite Hitem. now apply slot_after_untargeted.
Qed.

(** An entry that does not target a slot can be dropped. *)
Lemma slot_after_drop j before item after current :
  targets n j item = false ->
  slot_after n include_explanation j (before ++ item :: after) current
  = slot_after n include_explanation j (before ++ after) current.
Proof.
  intros Hitem. rewrite !slot_after_app. cbn [slot_after].
  now rewrite Hitem.
Qed.

Lemma slot_after_through j before item after current :
  targets n j item = true ->
  slot_after n include_explanation j (before ++ item :: after) current
  = slot_after n include_explanation j after
      (aligned_entry include_explanation item).
Proof.
  intros Hitem. rewrite slot_after_app. cbn [slot_after]. now rewrite Hitem.
Qed.

(** A slot holds what it held at first or the rendering of an entry that
    targets it. *)
Lemma slot_after_cases j entries current :
  slot_after n include_explanation j entries current = current
  \/ exists item,
       item ∈ entries /\ targets n j item = true
       /\ slot_after n include_explanation j entries current
          = aligned_entry include_explanation item.
Proof.
  revert current. induction entries as [|item rest IH]; intros current.
  - now left.
  - cbn [slot_after]. destruct (targets n j item) eqn:Ht.
    + destruct (IH (aligned_entry include_explanation item))
        as [Hkeep|(other & Hin & Hother & Heq)].
      * right. exists item. split; [apply list_elem_of_here|]. auto.
      * right. exists other. split; [now apply list_elem_of_further|]. auto.
    + destruct (IH current) as [Hkeep|(other & Hin & Hother & Heq)].
      * now left.
      * right. exists other. split; [now apply list_elem_of_further|]. auto.
Qed.

Lemma slot_after_invariant (P : AlignedResult -> Prop) j entries current :
  P current ->
  (forall item, P (aligned_entry include_explanation item)) ->
  P (slot_after n include_explanation j entries current).
Proof.
  intros Hcur Hentry.
  destruct (slot_after_cases j entries current)
    as [->|(item & _ & _ & ->)]; auto.
Qed.

(** The loop never raises, keeps the length, and leaves in every slot what
    [slot_after] computes. *)
Lemma align_loop_slots entries :
  forall aligned,
    length aligned = n ->
    exists out,
      align_loop n include_explanation entries aligned = Returned out
      /\ length out = n
      /\ forall j current,
           aligned !! j = Some current ->
           out !! j
           = Some (slot_after n include_explanation j entries current).
Proof.
  induction entries as [|item rest IH]; intros aligned Hlen.
  - exists aligned. repeat split; auto.
  - cbn [align_loop slot_after].
    destruct (as_int (index item)) as [z|] eqn:Hz.
    + destruct ((z <? 0) || (z >=? Z.of_nat n)) eqn:Hguard.
      * destruct (IH aligned Hlen) as (out & Hrun & Hout & Hslots).
        exists out. repeat split; auto.
        intros j current Hj.
        rewrite (targets_rejected j item z Hz Hguard). auto.
      * rewrite py_setitem_in_range
          by (destruct (targets_accepted 0 item z Hz Hguard); lia).
        cbn [outcome_bind].
        destruct (IH (<[Z.to_nat z := aligned_entry include_explanation item]>
                        aligned)) as (out & Hrun & Hout & Hslots).
        { now rewrite length_insert. }
        exists out. repeat split; auto.
        intros j current Hj. apply Hslots.
        destruct (targets_accepted j item z Hz Hguard) as [Hrange ->].
        case_bool_decide as Hjz.
        -- subst j. apply list_lookup_insert_eq.
           apply lookup_lt_Some in Hj. exact Hj.
        -- rewrite list_lookup_insert_ne by exact Hjz. exact Hj.
    + destruct (IH aligned Hlen) as (out & Hrun & Hout & Hslots).
      exists out. repeat split; auto.
      intros j current Hj. rewrite (targets_None j item Hz). auto.
Qed.

End Slots.

(** ** Runs of the batch classifier *)

Lemma map_is_fmap {A B : Type} (f : A -> B) (l : list A) : map f l = f <$> l.
Proof. reflexivity. Qed.

Lemma default_slots_lookup (responses : list string) (j : nat) :
  (j < length responses)%nat ->
  map (fun _ => default_result) responses !! j = Some default_result.
Proof.
  intros Hj. rewrite map_is_fmap, list_lookup_fmap.
  destruct (lookup_lt_is_Some_2 responses j Hj) as [r ->]. reflexivity.
Qed.

(** A list is determined by its length and by what its slots hold. *)
Lemma slots_closed_form (n : nat) (out : list AlignedResult)
    (f : nat -> AlignedResult) :
  length out = n ->
  (forall j, (j < n)%nat -> out !! j = Some (f j)) ->
  out = map f (seq 0 n).
Proof.
  intros Hlen Hslots. apply list_eq. intros j.
  rewrite map_is_fmap, list_lookup_fmap.
  destruct (decide (j < n)%nat) as [Hj|Hj].
  - rewrite lookup_seq_lt by exact Hj. cbn. auto.
  - rewrite lookup_seq_ge by lia. cbn.
    apply lookup_ge_None. lia.
Qed.

Lemma batch_result_length client question responses codebook_text model
    multi_label include_explanation :
  length (batch_result client question responses codebook_text model
                       multi_label include_explanation)
  = length responses.
Proof. unfold batch_result. now rewrite length_map, length_seq. Qed.

(** The adapter call returns the same answer whatever the log holds, and
    adds one request to it. *)
Lemma adapter_call_run client question responses codebook_text model
    multi_label include_explanation log :
  adapter_call client question responses codebook_text model multi_label
               include_explanation log
  = ((adapter_call client question responses codebook_text model multi_label
                   include_explanation []).1,
     log ++ (adapter_call client question responses codebook_text model
                          multi_label include_explanation []).2).
Proof.
  unfold adapter_call, _call_openai_api.
  destruct (client _); reflexivity.
Qed.

Lemma adapter_call_returns client question responses codebook_text model
    multi_label include_explanation log :
  exists answer,
    (adapter_call client question responses codebook_text model multi_label
                  include_explanation log).1 = Returned answer.
Proof.
  unfold adapter_call, _call_openai_api.
  destruct (client _); eexists; reflexivity.
Qed.

(** From the all-default list, the loop returns the closed form. *)
Lemma align_loop_from_defaults (responses : list string) include_explanation
    entries :
  align_loop (length responses) include_explanation entries
             (map (fun _ => default_result) responses)
  = Returned (map (fun j => slot_after (length responses) include_explanation
                              j entries default_result)
                  (seq 0 (length responses))).
Proof.
  destruct (align_loop_slots (length responses) include_explanation entries
              (map (fun _ => default_result) responses))
    as (out & Hrun & Hlen & Hslots).
  { now rewrite length_map. }
  rewrite Hrun. f_equal.
  apply slots_closed_form; [exact Hlen|].
  intros j Hj. apply Hslots. now apply default_slots_lookup.
Qed.

(** A run of [classify_batch] returns [batch_result] and adds
    [batch_calls] to the log. *)
Lemma classify_batch_run client question responses codebook_text model
    multi_label include_explanation log :
  classify_batch client question responses codebook_text model multi_label
                 include_explanation log
  = (Returned (batch_result client question responses codebook_text model
                            multi_label include_explanation),
     log ++ batch_calls client question responses codebook_text model
                        multi_label include_explanation).
Proof.
  destruct responses as [|r rs].
  - cbn. now rewrite app_nil_r.
  - unfold classify_batch, batch_result, batch_calls, bind.
    cbv beta iota zeta.
    remember (r :: rs) as responses eqn:Hresponses.
    pose proof (align_loop_from_defaults responses include_explanation)
      as Hloop.
    change (_call_openai_api client _ _ model log)
      with (adapter_call client question responses codebook_text model
              multi_label include_explanation log).
    rewrite (adapter_call_run _ _ _ _ _ _ _ log).
    destruct (adapter_call_returns client question responses codebook_text
                model multi_label include_explanation []) as [answer ->].
    cbn [fst].
    destruct answer as [p|]; unfold answer_entries.
    + destruct (results p) as [[|e es]|]; cbn [or_empty]; unfold ret, lift.
      * specialize (Hloop []). cbn [align_loop] in Hloop. now rewrite Hloop.
      * now rewrite Hloop.
      * specialize (Hloop []). cbn [align_loop] in Hloop. now rewrite Hloop.
    + unfold ret.
      specialize (Hloop []). cbn [align_loop] in Hloop. now rewrite Hloop.
Qed.

Lemma map_const_seq {A : Type} (d : A) (start n : nat) :
  map (fun _ => d) (seq start n) = replicate n d.
Proof.
  revert start. induction n as [|n IH]; intros start; cbn; [reflexivity|].
  now rewrite IH.
Qed.

(** What [classify_batch] returns when the adapter call of the run returns
    [answer]. *)
Lemma classify_batch_answer client question responses codebook_text model
    multi_label include_explanation log answer :
  (adapter_call client question responses codebook_text model multi_label
                include_explanation log).1 = Returned answer ->
  (classify_batch client question responses codebook_text model multi_label
                  include_explanation log).1
  = Returned
      (map (fun j => slot_after (length responses) include_explanation j
                       (answer_entries answer) default_result)
           (seq 0 (length responses))).
Proof.
  intros Hanswer. rewrite classify_batch_run. cbn [fst].
  unfold batch_result. cbv zeta.
  rewrite adapter_call_run in Hanswer. cbn [fst] in Hanswer.
  now rewrite Hanswer.
Qed.

Lemma closed_form_lookup (n : nat) (f : nat -> AlignedResult) (j : nat) :
  (j < n)%nat -> map f (seq 0 n) !! j = Some (f j).
Proof.
  intros Hj. now rewrite map_is_fmap, list_lookup_fmap, lookup_seq_lt.
Qed.

(** [run_with H]: name the list a run returns, from the hypothesis [H] on
    what the adapter call of that run returned. *)
Ltac run_with H :=
  eexists; split; [apply classify_batch_answer; exact H|].

(** ** The batch classifier: claims *)

(** C1 (length invariant). Whatever the inputs, the flags and the behaviour
    of the client, [classify_batch] returns (it does not raise) a list with
    exactly one entry per response. The entries stand in input order: the
    entry at position [j] is the default, or the rendering of an entry of
    the adapter's answer whose index is [j]. *)
Theorem classify_batch_length_invariant (client : Client) (question : string)
    (responses : list string) (codebook_text model : string)
    (multi_label include_explanation : bool) (log : list ChatRequest) :
  exists out,
    (classify_batch client question responses codebook_text model multi_label
                    include_explanation log).1 = Returned out
    /\ length out = length responses
    /\ forall (j : nat) (r : AlignedResult),
         out !! j = Some r ->
         r = {| Assigned_Code := "No Code Applied"; Details := [] |}
         \/ exists answer item,
              (adapter_call client question responses codebook_text model
                            multi_label include_explanation log).1
              = Returned answer
              /\ item ∈ answer_entries answer
              /\ as_int (index item) = Some (Z.of_nat j)
              /\ r = aligned_entry include_explanation item.
Proof.
  destruct (adapter_call_returns client question responses codebook_text model
              multi_label include_explanation log) as [answer Hanswer].
  run_with Hanswer.
  split; [now rewrite length_map, length_seq|].
  intros j r Hj.
  assert (Hlt : (j < length responses)%nat).
  { apply lookup_lt_Some in Hj. now rewrite length_map, length_seq in Hj. }
  rewrite closed_form_lookup in Hj by exact Hlt. injection Hj as <-.
  destruct (slot_after_cases (length responses) include_explanation j
              (answer_entries answer) default_result)
    as [->|(item & Hin & Ht & ->)].
  - now left.
  - right. exists answer, item. apply targets_true_inv in Ht as [Ht _]. auto.
Qed.

(** C3 (default fallback). If the adapter call returns [None], or an answer
    whose result list is empty (or missing), every entry of the list that
    [classify_batch] returns is the default. *)
Theorem default_fallback (client : Client) (question : string)
    (responses : list string) (codebook_text model : string)
    (multi_label include_explanation : bool) (log : list ChatRequest) :
  (adapter_call client question responses codebook_text model multi_label
                include_explanation log).1 = Returned None
  \/ (exists p,
        (adapter_call client question responses codebook_text model
                      multi_label include_explanation log).1
        = Returned (Some p)
        /\ (results p = Some [] \/ results p = None)) ->
  (classify_batch client question responses codebook_text model multi_label
                  include_explanation log).1
  = Returned (replicate (length responses)
                {| Assigned_Code := "No Code Applied"; Details := [] |}).
Proof.
  intros Hanswer.
  assert (exists answer,
            (adapter_call client question responses codebook_text model
                          multi_label include_explanation log).1
            = Returned answer
            /\ answer_entries answer = []) as (answer & Hrun & Hnone).
  { destruct Hanswer as [Hnull|(p & Hp & [Hempty|Hmissing])].
    - exists None. auto.
    - exists (Some p). split; [exact Hp|]. cbn. now rewrite Hempty.
    - exists (Some p). split; [exact Hp|]. cbn. now rewrite Hmissing. }
  rewrite (classify_batch_answer _ _ _ _ _ _ _ _ _ Hrun), Hnone.
  cbn [slot_after]. now rewrite map_const_seq.
Qed.

Lemma default_fallback_witness :
  (classify_batch failing_client "Why?" sample_responses "- Code: Positive"
                  "gpt-4o-mini" false true []).1
  = Returned (replicate 3 {| Assigned_Code := "No Code Applied";
                             Details := [] |}).
Proof.
  apply (default_fallback failing_client "Why?" sample_responses
           "- Code: Positive" "gpt-4o-mini" false true []).
  left. reflexivity.
Defined.

(** C4 (index tolerance). An entry whose index is not an integer, is
    negative, or is not below the number of responses is discarded: the run
    does not raise and returns the very list it returns when the entry is
    absent from the answer; a response that no remaining entry targets
    keeps the default. *)
Theorem index_tolerance (client client' : Client) (question : string)
    (responses : list string) (codebook_text model : string)
    (multi_label include_explanation : bool)
    (before : list BatchItem) (bad : BatchItem) (after : list BatchItem)
    (log : list ChatRequest) :
  index_rejected (length responses) bad ->
  (adapter_call client question responses codebook_text model multi_label
                include_explanation log).1
  = Returned (Some {| results := Some (before ++ bad :: after) |}) ->
  (adapter_call client' question responses codebook_text model multi_label
                include_explanation log).1
  = Returned (Some {| results := Some (before ++ after) |}) ->
  exists out,
    (classify_batch client question responses codebook_text model multi_label
                    include_explanation log).1 = Returned out
    /\ (classify_batch client' question responses codebook_text model
                       multi_label include_explanation log).1 = Returned out
    /\ forall j : nat,
         (j < length responses)%nat ->
         (forall item, item ∈ before ++ after ->
                       as_int (index item) <> Some (Z.of_nat j)) ->
         out !! j
         = Some {| Assigned_Code := "No Code Applied"; Details := [] |}.
Proof.
  intros Hbad Hwith Hwithout.
  run_with Hwith.
  rewrite (classify_batch_answer _ _ _ _ _ _ _ _ _ Hwithout).
  cbn [answer_entries results or_empty]. split.
  - f_equal. apply map_ext. intros j. symmetry.
    apply slot_after_drop. now apply targets_index_rejected.
  - intros j Hj Hfree. rewrite closed_form_lookup by exact Hj. f_equal.
    rewrite slot_after_drop by now apply targets_index_rejected.
    apply slot_after_untargeted. intros item Hin.
    apply targets_other. now apply Hfree.
Qed.

Lemma index_tolerance_witness :
  exists out,
    (classify_batch
       (answering [entry_at (PyInt 0) [sample_evidence "Positive" "Great"];
                   entry_at (PyInt 3) [sample_evidence "Other" "Meh"]])
       "Why?" sample_responses "- Code: Positive" "gpt-4o-mini" false true
       []).1 = Returned out
    /\ (classify_batch
          (answering [entry_at (PyInt 0) [sample_evidence "Positive" "Great"]])
          "Why?" sample_responses "- Code: Positive" "gpt-4o-mini" false true
          []).1 = Returned out
    /\ forall j : nat,
         (j < length sample_responses)%nat ->
         (forall item,
            item ∈ [entry_at (PyInt 0) [sample_evidence "Positive" "Great"]]
                   ++ [] ->
            as_int (index item) <> Some (Z.of_nat j)) ->
         out !! j
         = Some {| Assigned_Code := "No Code Applied"; Details := [] |}.
Proof.
  apply (index_tolerance
           (answering [entry_at (PyInt 0) [sample_evidence "Positive" "Great"];
                       entry_at (PyInt 3) [sample_evidence "Other" "Meh"]])
           (answering [entry_at (PyInt 0) [sample_evidence "Positive" "Great"]])
           "Why?" sample_responses "- Code: Positive" "gpt-4o-mini" false true
           [entry_at (PyInt 0) [sample_evidence "Positive" "Great"]]
           (entry_at (PyInt 3) [sample_evidence "Other" "Meh"]) [] []).
  - right. exists 3. split; [reflexivity|]. right. cbn. lia.
  - reflexivity.
  - reflexivity.
Defined.

(** C5 (slot overwrite). An entry with an integer index in range overwrites
    exactly the slot of that index. Unless a later entry targets the slot
    again, the slot ends with: as assigned code, the labels of the entry
    joined by space, bar, space, or the sentinel when the entry has no item;
    as details, one record per item with its label, fragment, pertinence and
    explanation (the explanation only when explanations are included).
    Every other slot is what it is when the entry is absent. *)
Theorem valid_entry_overwrites_slot (client client' : Client)
    (question : string) (responses : list string)
    (codebook_text model : string) (multi_label include_explanation : bool)
    (before : list BatchItem) (item : BatchItem) (after : list BatchItem)
    (z : Z) (log : list ChatRequest) :
  as_int (index item) = Some z ->
  0 <= z < Z.of_nat (length responses) ->
  (forall later, later ∈ after -> as_int (index later) <> Some z) ->
  (adapter_call client question responses codebook_text model multi_label
                include_explanation log).1
  = Returned (Some {| results := Some (before ++ item :: after) |}) ->
  (adapter_call client' question responses codebook_text model multi_label
                include_explanation log).1
  = Returned (Some {| results := Some (before ++ after) |}) ->
  exists out out',
    (classify_batch client question responses codebook_text model multi_label
                    include_explanation log).1 = Returned out
    /\ (classify_batch client' question responses codebook_text model
                       multi_label include_explanation log).1 = Returned out'
    /\ out !! Z.to_nat z
       = Some {| Assigned_Code :=
                   match or_empty (items item) with
                   | [] => "No Code Applied"
                   | _ :: _ => py_join " | " (map label (or_empty (items item)))
                   end;
                 Details :=
                   map (fun ev =>
                          {| detail_label := label ev;
                             detail_fragment := fragment ev;
                             detail_pertinence := pertinence ev;
                             detail_explanation :=
                               if include_explanation then explanation ev
                               else None |})
                       (or_empty (items item)) |}
    /\ forall j : nat, j <> Z.to_nat z -> out !! j = out' !! j.
Proof.
  intros Hz Hrange Hafter Hwith Hwithout.
  assert (Hitem : forall j, targets (length responses) j item
                            = bool_decide (Z.to_nat z = j))
    by (intros j; now apply targets_valid).
  do 2 eexists.
  split; [apply classify_batch_answer; exact Hwith|].
  split; [apply classify_batch_answer; exact Hwithout|].
  cbn [answer_entries results or_empty]. split.
  - rewrite closed_form_lookup by lia. f_equal.
    rewrite slot_after_last.
    + unfold aligned_entry. destruct (or_empty (items item)); reflexivity.
    + rewrite Hitem. now apply bool_decide_eq_true.
    + apply not_targeted_later; [lia|exact Hafter].
  - intros j Hj. rewrite !map_is_fmap, !list_lookup_fmap.
    destruct (seq 0 (length responses) !! j) as [k|] eqn:Hk; [|reflexivity].
    apply lookup_seq in Hk as [-> _]. cbn. f_equal.
    apply slot_after_drop. rewrite Hitem.
    apply bool_decide_eq_false. congruence.
Qed.

Lemma valid_entry_overwrites_slot_witness :
  exists out out',
    (classify_batch
       (answering [entry_at (PyInt 0) [sample_evidence "A" "Great";
                                       sample_evidence "B" "service"]])
       "Why?" sample_responses "- Code: A" "gpt-4o-mini" true false []).1
    = Returned out
    /\ (classify_batch (answering []) "Why?" sample_responses "- Code: A"
                       "gpt-4o-mini" true false []).1 = Returned out'
    /\ out !! 0%nat
       = Some {| Assigned_Code := "A | B";
                 Details :=
                   [ {| detail_label := "A"; detail_fragment := "Great";
                        detail_pertinence := 0.875%float;
                        detail_explanation := None |};
                     {| detail_label := "B"; detail_fragment := "service";
                        detail_pertinence := 0.875%float;
                        detail_explanation := None |} ] |}
    /\ forall j : nat, j <> 0%nat -> out !! j = out' !! j.
Proof.
  apply (valid_entry_overwrites_slot
           (answering [entry_at (PyInt 0) [sample_evidence "A" "Great";
                                           sample_evidence "B" "service"]])
           (answering [])
           "Why?" sample_responses "- Code: A" "gpt-4o-mini" true false
           []
           (entry_at (PyInt 0) [sample_evidence "A" "Great";
                                sample_evidence "B" "service"])
           [] 0 []).
  - reflexivity.
  - cbn. lia.
  - intros later Hin. inversion Hin.
  - reflexivity.
  - reflexivity.
Defined.

(** C6 (explanation suppression). With the include-explanation flag off,
    every detail of every entry of the returned list has no explanation,
    whatever the client answered. *)
Theorem explanation_suppression (client : Client) (question : string)
    (responses : list string) (codebook_text model : string)
    (multi_label : bool) (log : list ChatRequest) :
  exists out,
    (classify_batch client question responses codebook_text model multi_label
                    false log).1 = Returned out
    /\ forall (r : AlignedResult) (d : Detail),
         r ∈ out -> d ∈ Details r -> detail_explanation d = None.
Proof.
  rewrite classify_batch_run. eexists. split; [reflexivity|].
  intros r d Hr. unfold batch_result in Hr. cbv zeta in Hr.
  rewrite map_is_fmap in Hr.
  apply list_elem_of_fmap in Hr as (j & -> & _). revert d.
  apply slot_after_invariant.
  - intros d Hd. inversion Hd.
  - intros item d Hd. unfold aligned_entry in Hd. cbn [Details] in Hd.
    rewrite map_is_fmap in Hd.
    apply list_elem_of_fmap in Hd as (ev & -> & _). reflexivity.
Qed.

(** C7 (empty input). [classify_batch] on an empty batch and
    [classify_batches_async] on an empty list of batches return the empty
    list without raising and leave the log of client calls as it was: no
    call is made. *)
Theorem empty_input_makes_no_call (client : Client) (question : string)
    (codebook_text model : string) (multi_label include_explanation : bool)
    (completion : list nat) (log : list ChatRequest) :
  classify_batch client question [] codebook_text model multi_label
                 include_explanation log = (Returned [], log)
  /\ classify_batches_async client question [] codebook_text model
                            multi_label include_explanation completion log
     = (Returned [], log).
Proof. split; reflexivity. Qed.

(** C10 (duplicates, last wins). When two entries of the answer carry the
    same integer index in range, both are applied, in the order of the
    answer, and none is rejected: unless a still later entry targets the
    slot, it ends with the rendering of the second, and the whole returned
    list is the one obtained when the first is absent. *)
Theorem duplicate_index_last_wins (client client' : Client)
    (question : string) (responses : list string)
    (codebook_text model : string) (multi_label include_explanation : bool)
    (before : list BatchItem) (first : BatchItem) (between : list BatchItem)
    (second : BatchItem) (after : list BatchItem) (z : Z)
    (log : list ChatRequest) :
  as_int (index first) = Some z ->
  as_int (index second) = Some z ->
  0 <= z < Z.of_nat (length responses) ->
  (forall later, later ∈ after -> as_int (index later) <> Some z) ->
  (adapter_call client question responses codebook_text model multi_label
                include_explanation log).1
  = Returned
      (Some {| results :=
                 Some (before ++ first :: between ++ second :: after) |}) ->
  (adapter_call client' question responses codebook_text model multi_label
                include_explanation log).1
  = Returned
      (Some {| results := Some (before ++ between ++ second :: after) |}) ->
  exists out,
    (classify_batch client question responses codebook_text model multi_label
                    include_explanation log).1 = Returned out
    /\ out !! Z.to_nat z = Some (aligned_entry include_explanation second)
    /\ (classify_batch client' question responses codebook_text model
                       multi_label include_explanation log).1 = Returned out.
Proof.
  intros Hfirst Hsecond Hrange Hafter Hboth Hlast.
  run_with Hboth.
  rewrite (classify_batch_answer _ _ _ _ _ _ _ _ _ Hlast).
  cbn [answer_entries results or_empty].
  change (before ++ first :: between ++ second :: after)
    with (before ++ (first :: between) ++ second :: after).
  rewrite !app_assoc. split.
  - rewrite closed_form_lookup by lia. f_equal.
    apply slot_after_last.
    + rewrite (targets_valid _ _ _ z) by assumption.
      now apply bool_decide_eq_true.
    + apply not_targeted_later; [lia|exact Hafter].
  - f_equal. apply map_ext. intros j.
    destruct (targets (length responses) j second) eqn:Ht.
    + now rewrite !slot_after_through.
    + assert (Hf : targets (length responses) j first = false).
      { rewrite (targets_valid _ _ first z) by assumption.
        rewrite (targets_valid _ _ second z) in Ht by assumption.
        exact Ht. }
      rewrite <- !app_assoc. cbn [app]. symmetry.
      now apply slot_after_drop.
Qed.

Lemma duplicate_index_last_wins_witness :
  exists out,
    (classify_batch
       (answering [entry_at (PyInt 1) [sample_evidence "Negative" "Terrible"];
                   entry_at (PyInt 0) [sample_evidence "Positive" "Great"];
                   entry_at (PyInt 1) [sample_evidence "Support" "support"]])
       "Why?" sample_responses "- Code: Positive" "gpt-4o-mini" false true
       []).1 = Returned out
    /\ out !! Z.to_nat 1
       = Some (aligned_entry true
                 (entry_at (PyInt 1) [sample_evidence "Support" "support"]))
    /\ (classify_batch
          (answering [entry_at (PyInt 0) [sample_evidence "Positive" "Great"];
                      entry_at (PyInt 1) [sample_evidence "Support" "support"]])
          "Why?" sample_responses "- Code: Positive" "gpt-4o-mini" false true
          []).1 = Returned out.
Proof.
  apply (duplicate_index_last_wins
           (answering
              [entry_at (PyInt 1) [sample_evidence "Negative" "Terrible"];
               entry_at (PyInt 0) [sample_evidence "Positive" "Great"];
               entry_at (PyInt 1) [sample_evidence "Support" "support"]])
           (answering
              [entry_at (PyInt 0) [sample_evidence "Positive" "Great"];
               entry_at (PyInt 1) [sample_evidence "Support" "support"]])
           "Why?" sample_responses "- Code: Positive" "gpt-4o-mini" false true
           []
           (entry_at (PyInt 1) [sample_evidence "Negative" "Terrible"])
           [entry_at (PyInt 0) [sample_evidence "Positive" "Great"]]
           (entry_at (PyInt 1) [sample_evidence "Support" "support"])
           [] 1 []).
  - reflexivity.
  - reflexivity.
  - cbn. lia.
  - intros later Hin. inversion Hin.
  - reflexivity.
  - reflexivity.
Defined.

(** ** The concurrent scheduler: claims *)

Lemma store_completed_length client question batched_responses codebook_text
    model multi_label include_explanation slots k :
  length (store_completed client question batched_responses codebook_text
                          model multi_label include_explanation slots k)
  = length slots.
Proof.
  unfold store_completed. destruct (batched_responses !! k); [|reflexivity].
  apply length_insert.
Qed.

Lemma worker_run client question codebook_text model multi_label
    include_explanation idx batch log :
  worker client question codebook_text model multi_label include_explanation
         idx batch log
  = (Returned (idx, batch_result client question batch codebook_text model
                                 multi_label include_explanation),
     log ++ batch_calls client question batch codebook_text model multi_label
                        include_explanation).
Proof. unfold worker, bind. now rewrite classify_batch_run. Qed.

(** The collection loop never raises and stores every completed future at
    its submission position. *)
Lemma collect_completed_run client question batched_responses codebook_text
    model multi_label include_explanation completion :
  forall slots log,
    length slots = length batched_responses ->
    exists log',
      collect_completed
        (imap (worker client question codebook_text model multi_label
                      include_explanation) batched_responses)
        completion slots log
      = (Returned
           (foldl (store_completed client question batched_responses
                     codebook_text model multi_label include_explanation)
                  slots completion),
         log').
Proof.
  induction completion as [|k later IH]; intros slots log Hlen.
  - exists log. reflexivity.
  - cbn [collect_completed foldl]. rewrite list_lookup_imap.
    unfold store_completed at 2.
    destruct (batched_responses !! k) as [batch|] eqn:Hk; cbn [fmap option_fmap option_map].
    + unfold bind. rewrite worker_run. unfold lift.
      rewrite py_setitem_in_range
        by (apply lookup_lt_Some in Hk; lia).
      rewrite Nat2Z.id. apply IH. now rewrite length_insert.
    + now apply IH.
Qed.

Lemma foldl_store_completed_length client question batched_responses
    codebook_text model multi_label include_explanation completion slots :
  length (foldl (store_completed client question batched_responses
                   codebook_text model multi_label include_explanation)
                slots completion)
  = length slots.
Proof.
  revert slots. induction completion as [|k later IH]; intros slots.
  - reflexivity.
  - cbn [foldl]. rewrite IH. apply store_completed_length.
Qed.

(** A future that completed, at whatever point, has its result in the slot
    of its submission position. *)
Lemma completed_slot client question batched_responses codebook_text model
    multi_label include_explanation completion slots i batch :
  length slots = length batched_responses ->
  i ∈ completion ->
  batched_responses !! i = Some batch ->
  foldl (store_completed client question batched_responses codebook_text
           model multi_label include_explanation) slots completion !! i
  = Some (Some (batch_result client question batch codebook_text model
                             multi_label include_explanation)).
Proof.
  intros Hlen Hin Hbatch. revert Hin.
  induction completion as [|k earlier IH] using rev_ind; intros Hin.
  - inversion Hin.
  - rewrite foldl_snoc. unfold store_completed at 1.
    destruct (decide (k = i)) as [->|Hne].
    + rewrite Hbatch. apply list_lookup_insert_eq.
      rewrite foldl_store_completed_length, Hlen.
      now apply lookup_lt_Some in Hbatch.
    + apply elem_of_app in Hin as [Hin|Hin].
      * destruct (batched_responses !! k); [|now apply IH].
        rewrite list_lookup_insert_ne by exact Hne. now apply IH.
      * apply list_elem_of_singleton in Hin. congruence.
Qed.

Lemma classify_batches_sequential_run client question batched_responses
    codebook_text model multi_label include_explanation :
  forall log,
    exists log',
      classify_batches_sequential client question batched_responses
        codebook_text model multi_label include_explanation log
      = (Returned
           (map (fun batch =>
                   batch_result client question batch codebook_text model
                                multi_label include_explanation)
                batched_responses),
         log').
Proof.
  induction batched_responses as [|batch later IH]; intros log.
  - exists log. reflexivity.
  - cbn [classify_batches_sequential map]. unfold bind.
    rewrite classify_batch_run.
    destruct (IH (log ++ batch_calls client question batch codebook_text model
                                     multi_label include_explanation))
      as [log' ->].
    exists log'. reflexivity.
Qed.

Lemma classify_batches_async_run client question batched_responses
    codebook_text model multi_label include_explanation completion log :
  exists log',
    classify_batches_async client question batched_responses codebook_text
      model multi_label include_explanation completion log
    = (Returned
         (foldl (store_completed client question batched_responses
                   codebook_text model multi_label include_explanation)
                (replicate (length batched_responses) None) completion),
       log').
Proof.
  destruct batched_responses as [|first later].
  - exists log. cbn [classify_batches_async ret length replicate].
    do 2 f_equal. induction completion as [|k rest IH]; [reflexivity|].
    cbn [foldl]. exact IH.
  - apply collect_completed_run. apply length_replicate.
Qed.

(** C2 (order preservation under concurrency). Whatever the order in which
    the futures complete, the scheduler returns, slot by slot, what the
    sequential map of [classify_batch] over the batches returns: slot [i]
    holds the result of [classify_batch] on batch [i], and every result has
    the length of its batch, so the concatenation of the slots follows the
    flat order of the responses. *)
Theorem scheduler_preserves_submission_order (client : Client)
    (question : string) (batched_responses : list (list string))
    (codebook_text model : string) (multi_label include_explanation : bool)
    (completion : list nat) (log : list ChatRequest) :
  completion ≡ₚ seq 0 (length batched_responses) ->
  exists outs,
    (classify_batches_sequential client question batched_responses
       codebook_text model multi_label include_explanation log).1
    = Returned outs
    /\ (classify_batches_async client question batched_responses
          codebook_text model multi_label include_explanation completion
          log).1
       = Returned (map Some outs)
    /\ (forall (i : nat) (batch : list string) (log0 : list ChatRequest),
          batched_responses !! i = Some batch ->
          exists res,
            (classify_batch client question batch codebook_text model
                            multi_label include_explanation log0).1
            = Returned res
            /\ outs !! i = Some res)
    /\ map length outs = map length batched_responses.
Proof.
  intros Hperm.
  destruct (classify_batches_sequential_run client question batched_responses
              codebook_text model multi_label include_explanation log)
    as [log1 Hseq].
  eexists. split; [now rewrite Hseq|]. split; [|split].
  - destruct (classify_batches_async_run client question batched_responses
                codebook_text model multi_label include_explanation completion
                log) as [log2 ->].
    cbn [fst]. f_equal. apply list_eq. intros i.
    rewrite !map_is_fmap, !list_lookup_fmap.
    destruct (batched_responses !! i) as [batch|] eqn:Hi; cbn.
    + eapply completed_slot; [apply length_replicate| |exact Hi].
      rewrite Hperm. apply elem_of_seq.
      apply lookup_lt_Some in Hi. lia.
    + apply lookup_ge_None.
      rewrite foldl_store_completed_length, length_replicate.
      now apply lookup_ge_None in Hi.
  - intros i batch log0 Hi. eexists.
    split; [now rewrite classify_batch_run|].
    now rewrite map_is_fmap, list_lookup_fmap, Hi.
  - rewrite map_map. apply map_ext. intros batch.
    apply batch_result_length.
Qed.

Lemma reversed_completion_order : [2; 1; 0]%nat ≡ₚ seq 0 3.
Proof.
  cbn [seq].
  eapply perm_trans; [apply perm_swap|].
  eapply perm_trans; [apply perm_skip, perm_swap|].
  apply perm_swap.
Defined.

Lemma scheduler_preserves_submission_order_witness :
  exists outs,
    (classify_batches_sequential
       (answering [entry_at (PyInt 0) [sample_evidence "Positive" "Great"]])
       "Why?" [["a"; "b"]; ["c"]; ["d"; "e"; "f"]] "- Code: Positive"
       "gpt-4o-mini" false true []).1
    = Returned outs
    /\ (classify_batches_async
          (answering [entry_at (PyInt 0) [sample_evidence "Positive" "Great"]])
          "Why?" [["a"; "b"]; ["c"]; ["d"; "e"; "f"]] "- Code: Positive"
          "gpt-4o-mini" false true [2; 1; 0]%nat []).1
       = Returned (map Some outs)
    /\ (forall (i : nat) (batch : list string) (log0 : list ChatRequest),
          [["a"; "b"]; ["c"]; ["d"; "e"; "f"]] !! i = Some batch ->
          exists res,
            (classify_batch
               (answering
                  [entry_at (PyInt 0) [sample_evidence "Positive" "Great"]])
               "Why?" batch "- Code: Positive" "gpt-4o-mini" false true
               log0).1
            = Returned res
            /\ outs !! i = Some res)
    /\ map length outs = map length [["a"; "b"]; ["c"]; ["d"; "e"; "f"]].
Proof.
  apply (scheduler_preserves_submission_order
           (answering [entry_at (PyInt 0) [sample_evidence "Positive" "Great"]])
           "Why?" [["a"; "b"]; ["c"]; ["d"; "e"; "f"]] "- Code: Positive"
           "gpt-4o-mini" false true [2; 1; 0]%nat []).
  exact reversed_completion_order.
Defined.

(** ** Chunking: claims *)

Lemma take_min_length {A : Type} (l : list A) (k : nat) :
  take (k `min` length l) l = take k l.
Proof.
  destruct (decide (k <= length l)%nat) as [Hle|Hgt].
  - now rewrite Nat.min_l.
  - rewrite Nat.min_r by lia. rewrite !take_ge by lia. reflexivity.
Qed.

(** The slice taken for the chunk of rank [k]. *)
Lemma py_slice_chunk (items : list string) (size : Z) (k : nat) :
  0 < size ->
  py_slice items (Z.of_nat k * size) (Z.of_nat k * size + size)
  = take (Z.to_nat size) (drop (k * Z.to_nat size) items).
Proof.
  intros Hsize. unfold py_slice, py_slice_bound. cbv zeta.
  destruct (Z.ltb_spec (Z.of_nat k * size) 0); [nia|].
  destruct (Z.ltb_spec (Z.of_nat k * size + size) 0); [nia|].
  destruct (decide (Z.of_nat k * size <= Z.of_nat (length items)))
    as [Hin|Hout].
  - rewrite (Z.min_l (Z.of_nat k * size)) by exact Hin.
    replace (Z.to_nat (Z.of_nat k * size)) with (k * Z.to_nat size)%nat
      by nia.
    rewrite <- (take_min_length _ (Z.to_nat size)). f_equal.
    rewrite length_drop. lia.
  - rewrite !Z.min_r by lia. rewrite Z.sub_diag, Nat2Z.id.
    rewrite !drop_ge by nia. now rewrite !take_nil.
Qed.

Lemma concat_chunks {A : Type} (l : list A) (s m : nat) :
  concat (map (fun k => take s (drop (k * s) l)) (seq 0 m)) = take (m * s) l.
Proof.
  induction m as [|m IH].
  - reflexivity.
  - rewrite seq_S, map_app, concat_app, IH. cbn [map concat Nat.add].
    rewrite app_nil_r, take_take_drop. f_equal. lia.
Qed.

(** The number of chunks is the length divided by the size, rounded up. *)
Lemma chunk_count_bounds (n size : Z) :
  0 <= n -> 0 < size ->
  let q := (n + size - 1) / size in
  0 <= q /\ n <= q * size /\ (0 < q -> (q - 1) * size < n).
Proof.
  intros Hn Hsize q.
  pose proof (Z.div_mod (n + size - 1) size ltac:(lia)) as Hdiv.
  pose proof (Z.mod_pos_bound (n + size - 1) size Hsize) as Hmod.
  fold q in Hdiv. nia.
Qed.

(** C9 (chunking). For a positive size, [chunk_list] returns (it does not
    raise) chunks whose concatenation, in order, is the list itself; no
    chunk is longer than the size, and every chunk but the last has exactly
    the size. The function depends on nothing but its two arguments. *)
Theorem chunk_list_slices (items : list string) (size : Z) :
  0 < size ->
  exists chunks,
    chunk_list items size = Returned chunks
    /\ concat chunks = items
    /\ (forall chunk, chunk ∈ chunks -> Z.of_nat (length chunk) <= size)
    /\ (forall (i : nat) (chunk : list string),
          chunks !! i = Some chunk ->
          (S i < length chunks)%nat ->
          Z.of_nat (length chunk) = size).
Proof.
  intros Hsize.
  destruct (chunk_count_bounds (Z.of_nat (length items)) size
              ltac:(lia) Hsize) as (Hq0 & Hcover & Hlast).
  set (q := (Z.of_nat (length items) + size - 1) / size) in *.
  set (s := Z.to_nat size).
  assert (Hchunks :
    chunk_list items size
    = Returned (map (fun k => take s (drop (k * s) items))
                    (seq 0 (Z.to_nat q)))).
  { unfold chunk_list, py_range0.
    destruct (Z.eqb_spec size 0); [lia|].
    destruct (Z.ltb_spec size 0); [lia|].
    cbn [outcome_map outcome_bind]. f_equal. fold q.
    rewrite map_map. apply map_ext. intros k.
    now apply py_slice_chunk. }
  eexists. split; [exact Hchunks|]. split; [|split].
  - rewrite concat_chunks. apply take_ge. subst s. nia.
  - intros chunk Hin. rewrite map_is_fmap in Hin.
    apply list_elem_of_fmap in Hin as (k & -> & _).
    rewrite length_take. subst s. lia.
  - intros i chunk Hi Hnext.
    rewrite length_map, length_seq in Hnext.
    rewrite map_is_fmap, list_lookup_fmap in Hi.
    rewrite lookup_seq_lt in Hi by lia. cbn in Hi. injection Hi as <-.
    rewrite length_take, length_drop. subst s. nia.
Qed.

Lemma chunk_list_slices_witness :
  exists chunks,
    chunk_list ["a"; "b"; "c"; "d"; "e"] 2 = Returned chunks
    /\ concat chunks = ["a"; "b"; "c"; "d"; "e"]
    /\ (forall chunk, chunk ∈ chunks -> Z.of_nat (length chunk) <= 2)
    /\ (forall (i : nat) (chunk : list string),
          chunks !! i = Some chunk ->
          (S i < length chunks)%nat ->
          Z.of_nat (length chunk) = 2).
Proof.
  apply (chunk_list_slices ["a"; "b"; "c"; "d"; "e"] 2). lia.
Defined.

(** ** The codebook text serializer: claims *)

(** A codebook without codes, or no codebook at all, is serialized as the
    empty string. *)
Lemma reconstruct_codebook_text_empty :
  reconstruct_codebook_text None = EmptyString
  /\ reconstruct_codebook_text (Some {| codes := None |}) = EmptyString
  /\ reconstruct_codebook_text (Some {| codes := Some [] |}) = EmptyString.
Proof. repeat split. Qed.

(** C8 (codebook text), evaluated on a codebook of one code. The code and
    its description are separated by a backslash followed by the letter n,
    as the literal of the source spells it, and not by a line feed: the
    description does not start on a line of its own. *)
Theorem reconstruct_codebook_text_one_code :
  reconstruct_codebook_text
    (Some {| codes := Some [ {| code := "Positive";
                                description := "Praise";
                                examples := Some [] |} ] |})
  = "- Code: Positive" +:+ backslash_n +:+ "  Description: Praise"
  /\ reconstruct_codebook_text
       (Some {| codes := Some [ {| code := "Positive";
                                   description := "Praise";
                                   examples := Some [] |} ] |})
     <> "- Code: Positive" +:+ newline +:+ "  Description: Praise".
Proof. split; [reflexivity|discriminate]. Qed.

(** * Further properties *)

(** ** Chunking: sizes, counts and positions *)

(** For a positive size the chunk of rank [k] is the slice of [size] items
    that starts at position [k * size]; there are as many chunks as the
    length divided by the size, rounded up. *)
Lemma chunk_list_positive (items : list string) (size : Z) :
  0 < size ->
  chunk_list items size
  = Returned
      (map (fun k => take (Z.to_nat size) (drop (k * Z.to_nat size) items))
           (seq 0 (Z.to_nat ((Z.of_nat (length items) + size - 1) / size)))).
Proof.
  intros Hsize. unfold chunk_list, py_range0.
  destruct (Z.eqb_spec size 0); [lia|].
  destruct (Z.ltb_spec size 0); [lia|].
  cbn [outcome_map outcome_bind]. f_equal.
  rewrite map_map. apply map_ext. intros k. now apply py_slice_chunk.
Qed.

(** X1 (sizes that are not positive). With a size of zero [chunk_list]
    raises [ValueError]; with a negative size it returns no chunk at all,
    whatever the items: nothing of the input comes back. *)
Theorem chunk_list_nonpositive_size (items : list string) (size : Z) :
  size <= 0 ->
  chunk_list items size
  = if size =? 0 then Raised ValueError else Returned [].
Proof.
  intros Hsize. unfold chunk_list, py_range0.
  destruct (Z.eqb_spec size 0) as [->|Hnonzero]; [reflexivity|].
  destruct (Z.ltb_spec size 0); [|lia].
  pose proof (Z.div_mod (Z.of_nat (length items) + size + 1) size Hnonzero)
    as Hdiv.
  pose proof (Z.mod_neg_bound (Z.of_nat (length items) + size + 1) size
                ltac:(lia)) as Hmod.
  replace (Z.to_nat ((Z.of_nat (length items) + size + 1) / size)) with 0%nat
    by nia.
  reflexivity.
Qed.

Lemma chunk_list_nonpositive_size_witness :
  chunk_list ["a"; "b"; "c"] (-2) = Returned [].
Proof.
  apply (chunk_list_nonpositive_size ["a"; "b"; "c"] (-2)). lia.
Defined.

(** X2 (number of chunks). For a positive size there are as many chunks
    as the number of items divided by the size, rounded up, and no chunk
    is empty: an empty list gives no chunk. *)
Theorem chunk_list_count (items : list string) (size : Z) :
  0 < size ->
  exists chunks,
    chunk_list items size = Returned chunks
    /\ Z.of_nat (length chunks)
       = (Z.of_nat (length items) + size - 1) / size
    /\ forall chunk, chunk ∈ chunks -> chunk <> [].
Proof.
  intros Hsize. rewrite chunk_list_positive by exact Hsize.
  destruct (chunk_count_bounds (Z.of_nat (length items)) size
              ltac:(lia) Hsize) as (Hq0 & Hcover & Hlast).
  set (q := (Z.of_nat (length items) + size - 1) / size) in *.
  eexists. split; [reflexivity|]. split.
  - rewrite length_map, length_seq. lia.
  - intros chunk Hin. rewrite map_is_fmap in Hin.
    apply list_elem_of_fmap in Hin as (k & -> & Hk).
    apply elem_of_seq in Hk.
    intros Hempty. apply (f_equal length) in Hempty.
    rewrite length_take, length_drop in Hempty. cbn in Hempty. nia.
Qed.

Lemma chunk_list_count_witness :
  exists chunks,
    chunk_list ["a"; "b"; "c"; "d"; "e"] 2 = Returned chunks
    /\ Z.of_nat (length chunks)
       = (Z.of_nat (length ["a"; "b"; "c"; "d"; "e"]) + 2 - 1) / 2
    /\ forall chunk, chunk ∈ chunks -> chunk <> [].
Proof.
  apply (chunk_list_count ["a"; "b"; "c"; "d"; "e"] 2). lia.
Defined.

(** X3 (positions). For a positive size, the item at position [j] of the
    chunk of rank [i] is the item at position [i * size + j] of the list. *)
Theorem chunk_list_positions (items : list string) (size : Z)
    (chunks : list (list string)) (i j : nat) (chunk : list string) :
  0 < size ->
  chunk_list items size = Returned chunks ->
  chunks !! i = Some chunk ->
  Z.of_nat j < size ->
  chunk !! j = items !! (i * Z.to_nat size + j)%nat.
Proof.
  intros Hsize Hrun Hi Hj. rewrite chunk_list_positive in Hrun by exact Hsize.
  injection Hrun as <-.
  rewrite map_is_fmap, list_lookup_fmap in Hi.
  destruct (seq 0 _ !! i) as [k|] eqn:Hk; [|discriminate].
  apply lookup_seq in Hk as [-> _]. cbn in Hi. injection Hi as <-.
  rewrite lookup_take_lt by lia. now rewrite lookup_drop.
Qed.

Lemma chunk_list_positions_witness :
  ["c"; "d"] !! 1%nat
  = ["a"; "b"; "c"; "d"; "e"] !! (1 * Z.to_nat 2 + 1)%nat.
Proof.
  apply (chunk_list_positions ["a"; "b"; "c"; "d"; "e"] 2
           [["a"; "b"]; ["c"; "d"]; ["e"]] 1 1 ["c"; "d"]).
  - lia.
  - reflexivity.
  - reflexivity.
  - lia.
Defined.

(** ** The batch classifier: requests and answers *)

Lemma targets_target_of (n j : nat) (item : BatchItem) :
  targets n j item = true <-> target_of n item = Some j.
Proof.
  unfold targets, target_of.
  destruct (as_int (index item)) as [z|]; [|split; discriminate].
  destruct ((0 <=? z) && (z <? Z.of_nat n)) eqn:Hrange; cbn [andb].
  - apply andb_true_iff in Hrange as [Hlo _]. apply Z.leb_le in Hlo.
    rewrite Z.eqb_eq. split; [intros ->; f_equal; lia|].
    intros [= <-]. lia.
  - split; discriminate.
Qed.

Lemma not_targeted (n j : nat) (entries : list BatchItem) :
  j ∉ omap (target_of n) entries ->
  forall item, item ∈ entries -> targets n j item = false.
Proof.
  intros Hfree item Hin. destruct (targets n j item) eqn:Ht; [|reflexivity].
  exfalso. apply Hfree. apply list_elem_of_omap. exists item.
  split; [exact Hin|]. now apply targets_target_of.
Qed.

(** When no two entries target the same slot, the one entry that targets
    a slot decides it. *)
Lemma slot_after_unique (n : nat) (include_explanation : bool) (j : nat)
    (entries : list BatchItem) (item : BatchItem) (current : AlignedResult) :
  NoDup (omap (target_of n) entries) ->
  item ∈ entries ->
  target_of n item = Some j ->
  slot_after n include_explanation j entries current
  = aligned_entry include_explanation item.
Proof.
  intros Hnodup Hin Htarget.
  apply list_elem_of_split in Hin as (before & after & ->).
  rewrite omap_app in Hnodup. cbn [omap list_omap] in Hnodup.
  rewrite Htarget in Hnodup.
  apply NoDup_app in Hnodup as (_ & _ & Hafter).
  apply NoDup_cons in Hafter as [Hafter _].
  apply slot_after_last.
  - now apply targets_target_of.
  - now apply not_targeted.
Qed.

(** X4 (one request per batch). For a non-empty batch, whatever the client
    does, [classify_batch] sends exactly one request: it carries the given
    model, the fixed system message and the batch prompt, and it is added
    at the end of the log, which is otherwise kept. *)
Theorem classify_batch_sends_one_request (client : Client) (question : string)
    (responses : list string) (codebook_text model : string)
    (multi_label include_explanation : bool) (log : list ChatRequest) :
  responses <> [] ->
  (classify_batch client question responses codebook_text model multi_label
                  include_explanation log).2
  = log ++ [batch_request question responses codebook_text model multi_label
                          include_explanation].
Proof.
  intros Hsome. rewrite classify_batch_run. cbn [snd]. f_equal.
  destruct responses as [|r rs]; [contradiction|].
  unfold batch_calls, adapter_call, _call_openai_api, batch_request.
  destruct (client _); reflexivity.
Qed.

Lemma classify_batch_sends_one_request_witness :
  (classify_batch failing_client "Why?" sample_responses "- Code: Positive"
                  "gpt-4o-mini" false true []).2
  = [] ++ [batch_request "Why?" sample_responses "- Code: Positive"
                         "gpt-4o-mini" false true].
Proof.
  apply (classify_batch_sends_one_request failing_client "Why?"
           sample_responses "- Code: Positive" "gpt-4o-mini" false true []).
  discriminate.
Defined.

(** X5 (what the result is read from). The returned list is read from the
    number of responses, the include-explanation flag and the answer of the
    adapter, and from nothing else: the response texts, the question, the
    codebook text, the model and the multi-label flag only reach the
    prompt. In particular the single-label rule of the prompt is not
    enforced on the answer. *)
Theorem classify_batch_reads_only_the_answer (client client' : Client)
    (question question' : string) (responses responses' : list string)
    (codebook_text codebook_text' model model' : string)
    (multi_label multi_label' include_explanation : bool)
    (log log' : list ChatRequest)
    (answer : option BatchClassificationOutput) :
  length responses = length responses' ->
  (adapter_call client question responses codebook_text model multi_label
                include_explanation log).1 = Returned answer ->
  (adapter_call client' question' responses' codebook_text' model'
                multi_label' include_explanation log').1 = Returned answer ->
  (classify_batch client question responses codebook_text model multi_label
                  include_explanation log).1
  = (classify_batch client' question' responses' codebook_text' model'
                    multi_label' include_explanation log').1.
Proof.
  intros Hlen Hanswer Hanswer'.
  rewrite (classify_batch_answer _ _ _ _ _ _ _ _ _ Hanswer).
  rewrite (classify_batch_answer _ _ _ _ _ _ _ _ _ Hanswer').
  now rewrite Hlen.
Qed.

Lemma classify_batch_reads_only_the_answer_witness :
  (classify_batch
     (answering [entry_at (PyInt 0) [sample_evidence "A" "Great";
                                     sample_evidence "B" "service"]])
     "Why?" sample_responses "- Code: A" "gpt-4o-mini" false true []).1
  = (classify_batch
       (answering [entry_at (PyInt 0) [sample_evidence "A" "Great";
                                       sample_evidence "B" "service"]])
       "Why not?" ["x"; "y"; "z"] "- Code: B" "gpt-4o" true true []).1.
Proof.
  apply (classify_batch_reads_only_the_answer
           (answering [entry_at (PyInt 0) [sample_evidence "A" "Great";
                                           sample_evidence "B" "service"]])
           (answering [entry_at (PyInt 0) [sample_evidence "A" "Great";
                                           sample_evidence "B" "service"]])
           "Why?" "Why not?" sample_responses ["x"; "y"; "z"]
           "- Code: A" "- Code: B" "gpt-4o-mini" "gpt-4o" false true true
           [] []
           (Some {| results :=
                      Some [entry_at (PyInt 0)
                              [sample_evidence "A" "Great";
                               sample_evidence "B" "service"]] |})).
  - reflexivity.
  - reflexivity.
  - reflexivity.
Defined.

(** X6 (an answer of rejected indices only). When every entry of the
    answer has an index that is not an integer, is negative or is not below
    the number of responses, the returned list is all defaults, as if the
    adapter had returned nothing. *)
Theorem all_indices_rejected (client : Client) (question : string)
    (responses : list string) (codebook_text model : string)
    (multi_label include_explanation : bool) (entries : list BatchItem)
    (log : list ChatRequest) :
  (adapter_call client question responses codebook_text model multi_label
                include_explanation log).1
  = Returned (Some {| results := Some entries |}) ->
  Forall (index_rejected (length responses)) entries ->
  (classify_batch client question responses codebook_text model multi_label
                  include_explanation log).1
  = Returned (replicate (length responses)
                {| Assigned_Code := "No Code Applied"; Details := [] |}).
Proof.
  intros Hanswer Hrejected.
  rewrite (classify_batch_answer _ _ _ _ _ _ _ _ _ Hanswer).
  cbn [answer_entries results or_empty]. f_equal.
  rewrite <- (map_const_seq _ 0). apply map_ext. intros j.
  apply slot_after_untargeted. intros item Hin.
  apply targets_index_rejected.
  now apply (proj1 (Forall_forall _ _) Hrejected).
Qed.

Lemma all_indices_rejected_witness :
  (classify_batch
     (answering [entry_at (PyInt (-1)) [sample_evidence "A" "Great"];
                 entry_at (PyInt 3) [sample_evidence "B" "Meh"];
                 entry_at (PyStr "0") [sample_evidence "C" "Meh"];
                 entry_at PyNone []])
     "Why?" sample_responses "- Code: A" "gpt-4o-mini" false true []).1
  = Returned (replicate (length sample_responses)
                {| Assigned_Code := "No Code Applied"; Details := [] |}).
Proof.
  apply (all_indices_rejected _ "Why?" sample_responses "- Code: A"
           "gpt-4o-mini" false true
           [entry_at (PyInt (-1)) [sample_evidence "A" "Great"];
            entry_at (PyInt 3) [sample_evidence "B" "Meh"];
            entry_at (PyStr "0") [sample_evidence "C" "Meh"];
            entry_at PyNone []] []).
  - reflexivity.
  - constructor; [right; exists (-1); split; [reflexivity|left; lia]|].
    constructor; [right; exists 3; split; [reflexivity|right; cbn; lia]|].
    constructor; [left; reflexivity|].
    constructor; [left; reflexivity|].
    constructor.
Defined.

(** X7 (a complete answer). When the answer has one entry per response,
    with indices 0, 1, 2, ... in this order, the returned list is the
    rendering of the entries, one by one: no default is left. *)
Theorem complete_answer_rendered (client : Client) (question : string)
    (responses : list string) (codebook_text model : string)
    (multi_label include_explanation : bool) (entries : list BatchItem)
    (log : list ChatRequest) :
  (adapter_call client question responses codebook_text model multi_label
                include_explanation log).1
  = Returned (Some {| results := Some entries |}) ->
  map (fun item => as_int (index item)) entries
  = map (fun j => Some (Z.of_nat j)) (seq 0 (length responses)) ->
  (classify_batch client question responses codebook_text model multi_label
                  include_explanation log).1
  = Returned (map (aligned_entry include_explanation) entries).
Proof.
  intros Hanswer Hindices.
  rewrite (classify_batch_answer _ _ _ _ _ _ _ _ _ Hanswer).
  cbn [answer_entries results or_empty]. f_equal.
  assert (Hlen : length entries = length responses).
  { apply (f_equal length) in Hindices.
    now rewrite !length_map, length_seq in Hindices. }
  assert (Hindex : forall k item,
            entries !! k = Some item ->
            as_int (index item) = Some (Z.of_nat k)).
  { intros k item Hk.
    apply (f_equal (fun l => l !! k)) in Hindices.
    rewrite !map_is_fmap, !list_lookup_fmap, Hk in Hindices.
    rewrite lookup_seq_lt in Hindices
      by (apply lookup_lt_Some in Hk; lia).
    cbn in Hindices. now injection Hindices. }
  apply list_eq. intros j. rewrite !map_is_fmap, !list_lookup_fmap.
  destruct (entries !! j) as [item|] eqn:Hj.
  - rewrite lookup_seq_lt by (apply lookup_lt_Some in Hj; lia).
    cbn. f_equal.
    rewrite <- (take_drop_middle entries j item Hj).
    apply slot_after_last.
    + rewrite (targets_valid _ _ _ (Z.of_nat j)).
      * apply bool_decide_eq_true. lia.
      * now apply Hindex.
      * apply lookup_lt_Some in Hj. lia.
    + intros later Hlater. apply targets_other.
      apply list_elem_of_lookup in Hlater as [k Hk].
      rewrite lookup_drop in Hk. rewrite (Hindex _ _ Hk).
      intros [= Heq]. lia.
  - rewrite lookup_seq_ge by (apply lookup_ge_None in Hj; lia).
    reflexivity.
Qed.

Lemma complete_answer_rendered_witness :
  (classify_batch
     (answering [entry_at (PyInt 0) [sample_evidence "Positive" "Great"];
                 entry_at (PyInt 1) [sample_evidence "Negative" "Terrible"];
                 entry_at (PyInt 2) []])
     "Why?" sample_responses "- Code: Positive" "gpt-4o-mini" false true []).1
  = Returned
      (map (aligned_entry true)
           [entry_at (PyInt 0) [sample_evidence "Positive" "Great"];
            entry_at (PyInt 1) [sample_evidence "Negative" "Terrible"];
            entry_at (PyInt 2) []]).
Proof.
  apply (complete_answer_rendered _ "Why?" sample_responses "- Code: Positive"
           "gpt-4o-mini" false true
           [entry_at (PyInt 0) [sample_evidence "Positive" "Great"];
            entry_at (PyInt 1) [sample_evidence "Negative" "Terrible"];
            entry_at (PyInt 2) []] []).
  - reflexivity.
  - reflexivity.
Defined.

(** X8 (order of the entries). When no two entries of the answer target
    the same slot, the order in which the answer lists them does not
    matter: any rearrangement of the entries gives the same list. *)
Theorem entry_order_irrelevant (client client' : Client) (question : string)
    (responses : list string) (codebook_text model : string)
    (multi_label include_explanation : bool)
    (entries entries' : list BatchItem) (log : list ChatRequest) :
  NoDup (omap (target_of (length responses)) entries) ->
  entries' ≡ₚ entries ->
  (adapter_call client question responses codebook_text model multi_label
                include_explanation log).1
  = Returned (Some {| results := Some entries |}) ->
  (adapter_call client' question responses codebook_text model multi_label
                include_explanation log).1
  = Returned (Some {| results := Some entries' |}) ->
  (classify_batch client question responses codebook_text model multi_label
                  include_explanation log).1
  = (classify_batch client' question responses codebook_text model
                    multi_label include_explanation log).1.
Proof.
  intros Hnodup Hperm Hanswer Hanswer'.
  rewrite (classify_batch_answer _ _ _ _ _ _ _ _ _ Hanswer).
  rewrite (classify_batch_answer _ _ _ _ _ _ _ _ _ Hanswer').
  cbn [answer_entries results or_empty]. f_equal.
  apply map_ext. intros j.
  assert (Hnodup' : NoDup (omap (target_of (length responses)) entries'))
    by now rewrite Hperm.
  destruct (decide (j ∈ omap (target_of (length responses)) entries))
    as [Hin|Hout].
  - apply list_elem_of_omap in Hin as (item & Hin & Htarget).
    rewrite (slot_after_unique _ _ _ entries item) by assumption.
    rewrite (slot_after_unique _ _ _ entries' item); [reflexivity|..].
    + exact Hnodup'.
    + now rewrite Hperm.
    + exact Htarget.
  - rewrite slot_after_untargeted by now apply not_targeted.
    rewrite slot_after_untargeted; [reflexivity|].
    apply not_targeted. now rewrite Hperm.
Qed.

Lemma entry_order_irrelevant_witness :
  (classify_batch
     (answering [entry_at (PyInt 0) [sample_evidence "Positive" "Great"];
                 entry_at (PyInt 2) []])
     "Why?" sample_responses "- Code: Positive" "gpt-4o-mini" false true []).1
  = (classify_batch
       (answering [entry_at (PyInt 2) [];
                   entry_at (PyInt 0) [sample_evidence "Positive" "Great"]])
       "Why?" sample_responses "- Code: Positive" "gpt-4o-mini" false true
       []).1.
Proof.
  apply (entry_order_irrelevant _ _ "Why?" sample_responses "- Code: Positive"
           "gpt-4o-mini" false true
           [entry_at (PyInt 0) [sample_evidence "Positive" "Great"];
            entry_at (PyInt 2) []]
           [entry_at (PyInt 2) [];
            entry_at (PyInt 0) [sample_evidence "Positive" "Great"]] []).
  - change (NoDup [0; 2]%nat).
    apply NoDup_cons. split.
    + intros Hin. apply list_elem_of_singleton in Hin. discriminate.
    + apply NoDup_singleton.
  - apply perm_swap.
  - reflexivity.
  - reflexivity.
Defined.

(** ** The concurrent scheduler: requests, and the pipeline from a flat list *)

Lemma concat_Permutation {A : Type} (l l' : list (list A)) :
  l ≡ₚ l' -> concat l ≡ₚ concat l'.
Proof.
  induction 1 as [|x l l' _ IH|x y l|l l' l'' _ IH1 _ IH2]; cbn [concat].
  - reflexivity.
  - now apply Permutation_app_head.
  - rewrite !app_assoc. apply Permutation_app_tail, Permutation_app_comm.
  - now transitivity (concat l').
Qed.

Lemma batch_calls_nonempty client question responses codebook_text model
    multi_label include_explanation :
  responses <> [] ->
  batch_calls client question responses codebook_text model multi_label
              include_explanation
  = [batch_request question responses codebook_text model multi_label
                   include_explanation].
Proof.
  intros Hsome. destruct responses as [|r rs]; [contradiction|].
  unfold batch_calls, adapter_call, _call_openai_api, batch_request.
  destruct (client _); reflexivity.
Qed.

(** The log after the collection loop: the requests of the futures, in
    the order of their completion, after what the log held. *)
Lemma collect_completed_log client question batched_responses codebook_text
    model multi_label include_explanation completion :
  forall slots log,
    length slots = length batched_responses ->
    (collect_completed
       (imap (worker client question codebook_text model multi_label
                     include_explanation) batched_responses)
       completion slots log).2
    = log ++ concat (map (completed_calls client question batched_responses
                            codebook_text model multi_label
                            include_explanation)
                         completion).
Proof.
  induction completion as [|k later IH]; intros slots log Hlen.
  - cbn. now rewrite app_nil_r.
  - cbn [collect_completed map concat]. rewrite list_lookup_imap.
    unfold completed_calls at 1.
    destruct (batched_responses !! k) as [batch|] eqn:Hk;
      cbn [fmap option_fmap option_map].
    + unfold bind. rewrite worker_run. unfold lift.
      rewrite py_setitem_in_range by (apply lookup_lt_Some in Hk; lia).
      rewrite IH by now rewrite length_insert.
      now rewrite app_assoc.
    + now rewrite IH.
Qed.

Lemma completed_calls_in_order client question batched_responses
    codebook_text model multi_label include_explanation :
  map (completed_calls client question batched_responses codebook_text model
                       multi_label include_explanation)
      (seq 0 (length batched_responses))
  = map (fun batch => batch_calls client question batch codebook_text model
                                  multi_label include_explanation)
        batched_responses.
Proof.
  apply list_eq. intros i. rewrite !map_is_fmap, !list_lookup_fmap.
  unfold completed_calls.
  destruct (batched_responses !! i) as [batch|] eqn:Hi.
  - rewrite lookup_seq_lt by (now apply lookup_lt_Some in Hi).
    cbn. now rewrite Hi.
  - rewrite lookup_seq_ge by (now apply lookup_ge_None in Hi). reflexivity.
Qed.

Lemma sequential_calls client question batched_responses codebook_text model
    multi_label include_explanation :
  concat (map (fun batch => batch_calls client question batch codebook_text
                                        model multi_label include_explanation)
              batched_responses)
  = map (fun batch => batch_request question batch codebook_text model
                                    multi_label include_explanation)
        (filter (fun batch => batch <> []) batched_responses).
Proof.
  induction batched_responses as [|batch later IH]; [reflexivity|].
  cbn [map concat]. rewrite IH.
  destruct (decide (batch = [])) as [->|Hsome].
  - now rewrite filter_cons_False by auto.
  - rewrite filter_cons_True by exact Hsome.
    now rewrite batch_calls_nonempty by exact Hsome.
Qed.

(** The result of the scheduler, for a completion order that lists every
    future once. *)
Lemma classify_batches_async_result client question batched_responses
    codebook_text model multi_label include_explanation completion log :
  completion ≡ₚ seq 0 (length batched_responses) ->
  (classify_batches_async client question batched_responses codebook_text
     model multi_label include_explanation completion log).1
  = Returned
      (map (fun batch =>
              Some (batch_result client question batch codebook_text model
                                 multi_label include_explanation))
           batched_responses).
Proof.
  intros Hperm.
  destruct (classify_batches_async_run client question batched_responses
              codebook_text model multi_label include_explanation completion
              log) as [log' ->].
  cbn [fst]. f_equal. apply list_eq. intros i.
  rewrite map_is_fmap, list_lookup_fmap.
  destruct (batched_responses !! i) as [batch|] eqn:Hi; cbn.
  - eapply completed_slot; [apply length_replicate| |exact Hi].
    rewrite Hperm. apply elem_of_seq. apply lookup_lt_Some in Hi. lia.
  - apply lookup_ge_None.
    rewrite foldl_store_completed_length, length_replicate.
    now apply lookup_ge_None in Hi.
Qed.

Lemma classify_batches_async_log client question batched_responses
    codebook_text model multi_label include_explanation completion log :
  (classify_batches_async client question batched_responses codebook_text
     model multi_label include_explanation completion log).2
  = log ++ concat (map (completed_calls client question batched_responses
                          codebook_text model multi_label include_explanation)
                       completion).
Proof.
  destruct batched_responses as [|first later].
  - cbn [classify_batches_async ret snd].
    assert (Hnone : concat (map (completed_calls client question []
                                   codebook_text model multi_label
                                   include_explanation) completion) = []).
    { induction completion as [|k rest IH]; [reflexivity|]. exact IH. }
    now rewrite Hnone, app_nil_r.
  - apply collect_completed_log. apply length_replicate.
Qed.

(** X9 (requests of the scheduler). Whatever the order in which the
    futures complete, the scheduler adds to the log, which it otherwise
    keeps, exactly the requests of the batches that are not empty, one
    each, up to their order. *)
Theorem scheduler_requests (client : Client) (question : string)
    (batched_responses : list (list string)) (codebook_text model : string)
    (multi_label include_explanation : bool) (completion : list nat)
    (log : list ChatRequest) :
  completion ≡ₚ seq 0 (length batched_responses) ->
  exists added,
    (classify_batches_async client question batched_responses codebook_text
       model multi_label include_explanation completion log).2
    = log ++ added
    /\ added ≡ₚ map (fun batch =>
                       batch_request question batch codebook_text model
                                     multi_label include_explanation)
                    (filter (fun batch => batch <> []) batched_responses).
Proof.
  intros Hperm. eexists. split; [apply classify_batches_async_log|].
  rewrite <- (sequential_calls client), <- completed_calls_in_order.
  apply concat_Permutation. rewrite !map_is_fmap. now rewrite Hperm.
Qed.

Lemma scheduler_requests_witness :
  exists added,
    (classify_batches_async failing_client "Why?" [["a"; "b"]; []; ["c"]]
       "- Code: Positive" "gpt-4o-mini" false true [2; 1; 0]%nat []).2
    = [] ++ added
    /\ added ≡ₚ map (fun batch =>
                       batch_request "Why?" batch "- Code: Positive"
                                     "gpt-4o-mini" false true)
                    (filter (fun batch => batch <> [])
                            [["a"; "b"]; []; ["c"]]).
Proof.
  apply (scheduler_requests failing_client "Why?" [["a"; "b"]; []; ["c"]]
           "- Code: Positive" "gpt-4o-mini" false true [2; 1; 0]%nat []).
  exact reversed_completion_order.
Defined.






(** ** The codebook text serializer: what the text holds *)

Lemma reconstruct_by_codes (codebook : option Codebook) :
  reconstruct_codebook_text codebook
  = match codebook_codes codebook with
    | [] => EmptyString
    | _ :: _ =>
        py_strip
          (py_join backslash_n
             (map (fun item =>
                     "- Code: " +:+ code item +:+ "\n  Description: "
                                +:+ description item)
                  (codebook_codes codebook)))
    end.
Proof.
  destruct codebook as [[[[|c entries]|]]|]; reflexivity.
Qed.

(** The joined blocks start with the dash of the first block. *)
Lemma joined_blocks_head (entries : list Code) :
  entries <> [] ->
  exists rest,
    py_join backslash_n
      (map (fun item =>
              "- Code: " +:+ code item +:+ "\n  Description: "
                         +:+ description item)
           entries)
    = String "-"%char rest.
Proof.
  intros Hsome. destruct entries as [|c [|c' later]]; [contradiction|..];
    cbn; eexists; reflexivity.
Qed.

Lemma py_rstrip_split (s : string) :
  exists tail, s = py_rstrip s +:+ tail /\ all_space tail = true.
Proof.
  induction s as [|c rest (tail & Hrest & Htail)].
  - exists EmptyString. split; reflexivity.
  - cbn [py_rstrip]. destruct (py_rstrip rest) as [|c' kept] eqn:Hkept.
    + change (rest = tail) in Hrest. subst tail.
      destruct (py_isspace c) eqn:Hc.
      * exists (String c rest). split; [reflexivity|].
        cbn [all_space]. now rewrite Hc, Htail.
      * exists rest. split; [reflexivity|exact Htail].
    + exists tail. split; [|exact Htail].
      change (String c rest = String c (String c' kept +:+ tail)).
      now rewrite <- Hrest.
Qed.

Lemma py_rstrip_last (s body : string) (c : ascii) :
  py_rstrip s = body +:+ String c EmptyString -> py_isspace c = false.
Proof.
  revert body. induction s as [|a rest IH]; intros body Hlast.
  - destruct body; discriminate.
  - cbn [py_rstrip] in Hlast.
    destruct (py_rstrip rest) as [|c' kept] eqn:Hkept.
    + destruct (py_isspace a) eqn:Ha.
      * destruct body; discriminate.
      * destruct body as [|b body]; cbn in Hlast.
        -- now injection Hlast as <-.
        -- injection Hlast as _ Hlast. destruct body; discriminate.
    + destruct body as [|b body]; cbn in Hlast.
      * discriminate.
      * injection Hlast as _ Hlast. now apply (IH body).
Qed.

(** X11 (examples are left out). The text depends on the codes and their
    descriptions only: two codebooks that differ in nothing but the examples
    of their codes are serialized to the same text. *)
Theorem reconstruct_codebook_text_ignores_examples
    (codebook codebook' : option Codebook) :
  map (fun item => (code item, description item)) (codebook_codes codebook)
  = map (fun item => (code item, description item))
        (codebook_codes codebook') ->
  reconstruct_codebook_text codebook = reconstruct_codebook_text codebook'.
Proof.
  intros Hsame. rewrite !reconstruct_by_codes.
  assert (Hblocks :
    map (fun item => "- Code: " +:+ code item +:+ "\n  Description: "
                                +:+ description item)
        (codebook_codes codebook)
    = map (fun item => "- Code: " +:+ code item +:+ "\n  Description: "
                                  +:+ description item)
          (codebook_codes codebook')).
  { apply (f_equal (map (fun pair : string * string =>
                           "- Code: " +:+ pair.1 +:+ "\n  Description: "
                                      +:+ pair.2))) in Hsame.
    now rewrite !map_map in Hsame. }
  rewrite Hblocks.
  destruct (codebook_codes codebook), (codebook_codes codebook');
    try discriminate; reflexivity.
Qed.

Lemma reconstruct_codebook_text_ignores_examples_witness :
  reconstruct_codebook_text
    (Some {| codes := Some [ {| code := "Positive"; description := "Praise";
                                examples := Some ["Great service!"] |} ] |})
  = reconstruct_codebook_text
      (Some {| codes := Some [ {| code := "Positive";
                                  description := "Praise";
                                  examples := None |} ] |}).
Proof.
  apply (reconstruct_codebook_text_ignores_examples
           (Some {| codes := Some [ {| code := "Positive";
                                       description := "Praise";
                                       examples := Some ["Great service!"] |} ]
                 |})
           (Some {| codes := Some [ {| code := "Positive";
                                       description := "Praise";
                                       examples := None |} ] |})).
  reflexivity.
Defined.

(** X12 (empty text). The text is empty exactly when there is no code to
    serialize: no codebook, no list of codes, or an empty list. A codebook
    with a code never gives the empty text, even when the code and its
    description are empty or blank. *)
Theorem reconstruct_codebook_text_empty_iff (codebook : option Codebook) :
  reconstruct_codebook_text codebook = EmptyString
  <-> codebook_codes codebook = [].
Proof.
  rewrite reconstruct_by_codes.
  destruct (codebook_codes codebook) as [|c entries] eqn:Hcodes.
  - split; reflexivity.
  - split; [|discriminate]. intros Hempty. exfalso.
    destruct (joined_blocks_head (c :: entries) ltac:(discriminate))
      as [rest Hhead].
    rewrite Hhead in Hempty. unfold py_strip in Hempty.
    cbn [py_lstrip] in Hempty.
    change (py_isspace "-"%char) with false in Hempty.
    cbn [py_rstrip] in Hempty.
    destruct (py_rstrip rest); discriminate.
Qed.

(** X13 (what stripping removes). For a codebook with codes, the text is
    the blocks joined by the separator, less a run of whitespace at the
    very end: nothing is removed at the start or inside, and the text does
    not end with a whitespace character. *)
Theorem reconstruct_codebook_text_strips_the_end
    (codebook : option Codebook) :
  codebook_codes codebook <> [] ->
  exists tail,
    py_join backslash_n
      (map (fun item =>
              "- Code: " +:+ code item +:+ "\n  Description: "
                         +:+ description item)
           (codebook_codes codebook))
    = reconstruct_codebook_text codebook +:+ tail
    /\ all_space tail = true
    /\ forall (body : string) (c : ascii),
         reconstruct_codebook_text codebook = body +:+ String c EmptyString ->
         py_isspace c = false.
Proof.
  intros Hsome. rewrite reconstruct_by_codes.
  destruct (joined_blocks_head (codebook_codes codebook) Hsome)
    as [rest Hhead].
  destruct (codebook_codes codebook) as [|c entries] eqn:Hcodes;
    [contradiction|].
  rewrite Hhead. unfold py_strip. cbn [py_lstrip].
  change (py_isspace "-"%char) with false. cbv iota.
  destruct (py_rstrip_split (String "-"%char rest)) as (tail & Hsplit & Htail).
  exists tail. split; [exact Hsplit|]. split; [exact Htail|].
  intros body last. apply py_rstrip_last.
Qed.

Lemma reconstruct_codebook_text_strips_the_end_witness :
  exists tail,
    py_join backslash_n
      (map (fun item =>
              "- Code: " +:+ code item +:+ "\n  Description: "
                         +:+ description item)
           (codebook_codes
              (Some {| codes := Some [ {| code := "Positive";
                                          description := "Praise  ";
                                          examples := None |} ] |})))
    = reconstruct_codebook_text
        (Some {| codes := Some [ {| code := "Positive";
                                    description := "Praise  ";
                                    examples := None |} ] |})
      +:+ tail
    /\ all_space tail = true
    /\ forall (body : string) (c : ascii),
         reconstruct_codebook_text
           (Some {| codes := Some [ {| code := "Positive";
                                       description := "Praise  ";
                                       examples := None |} ] |})
         = body +:+ String c EmptyString ->
         py_isspace c = false.
Proof.
  apply (reconstruct_codebook_text_strips_the_end
           (Some {| codes := Some [ {| code := "Positive";
                                       description := "Praise  ";
                                       examples := None |} ] |})).
  discriminate.
Defined.

(** ** The concurrent scheduler: a batch whose call fails *)

Lemma batch_result_failed client question responses codebook_text model
    multi_label include_explanation :
  client (batch_request question responses codebook_text model multi_label
                        include_explanation) = Failed ->
  batch_result client question responses codebook_text model multi_label
               include_explanation
  = replicate (length responses) default_result.
Proof.
  intros Hfailed. unfold batch_result, adapter_call, _call_openai_api.
  cbv zeta. unfold batch_request in Hfailed. rewrite Hfailed.
  cbn [fst answer_entries slot_after]. apply map_const_seq.
Qed.

(** X14 (a failed batch among others). When the call of one batch fails,
    the scheduler does not raise: for every order of completion the slot
    of that batch holds one default entry per response of the batch, and
    the slot of every other batch holds what [classify_batch] returns for
    it. *)
Theorem failed_batch_falls_back (client : Client) (question : string)
    (batched_responses : list (list string)) (codebook_text model : string)
    (multi_label include_explanation : bool) (completion : list nat)
    (log : list ChatRequest) (i : nat) (batch : list string) :
  completion ≡ₚ seq 0 (length batched_responses) ->
  batched_responses !! i = Some batch ->
  client (batch_request question batch codebook_text model multi_label
                        include_explanation) = Failed ->
  exists outs,
    (classify_batches_async client question batched_responses codebook_text
       model multi_label include_explanation completion log).1
    = Returned outs
    /\ outs !! i
       = Some (Some (replicate (length batch)
                       {| Assigned_Code := "No Code Applied";
                          Details := [] |}))
    /\ forall (k : nat) (other : list string) (log0 : list ChatRequest),
         batched_responses !! k = Some other ->
         exists res,
           (classify_batch client question other codebook_text model
                           multi_label include_explanation log0).1
           = Returned res
           /\ outs !! k = Some (Some res).
Proof.
  intros Hperm Hi Hfailed. eexists.
  split; [now apply classify_batches_async_result|]. split.
  - rewrite map_is_fmap, list_lookup_fmap, Hi. cbn.
    now rewrite batch_result_failed.
  - intros k other log0 Hk. eexists.
    split; [now rewrite classify_batch_run|].
    now rewrite map_is_fmap, list_lookup_fmap, Hk.
Qed.

Lemma failed_batch_falls_back_witness :
  exists outs,
    (classify_batches_async failing_client "Why?" [["a"; "b"]; ["c"]; ["d"]]
       "- Code: Positive" "gpt-4o-mini" false true [2; 1; 0]%nat []).1
    = Returned outs
    /\ outs !! 0%nat
       = Some (Some (replicate (length ["a"; "b"])
                       {| Assigned_Code := "No Code Applied";
                          Details := [] |}))
    /\ forall (k : nat) (other : list string) (log0 : list ChatRequest),
         [["a"; "b"]; ["c"]; ["d"]] !! k = Some other ->
         exists res,
           (classify_batch failing_client "Why?" other "- Code: Positive"
                           "gpt-4o-mini" false true log0).1
           = Returned res
           /\ outs !! k = Some (Some res).
Proof.
  apply (failed_batch_falls_back failing_client "Why?"
           [["a"; "b"]; ["c"]; ["d"]] "- Code: Positive" "gpt-4o-mini" false
           true [2; 1; 0]%nat [] 0 ["a"; "b"]).
  - exact reversed_completion_order.
  - reflexivity.
  - reflexivity.
Defined.
